(** * TRI engine (src/logic/tri_engine.py): 3-parameter logistic IRT model,
      maximum-likelihood proficiency estimate and ENEM score scale.

    Numeric models.  The engine computes in IEEE binary64; the file has it
    at three levels.

    - Exact: Python [float]s are idealised as real numbers ([R]), [np.exp]
      is [exp] and every finite arithmetic operation is the exact one.  The
      only place where the code can leave the finite numbers is [np.log],
      whose result on a non-positive argument is [-inf] or [nan]; that is
      kept explicit in the type [npfloat].  The statements about the
      formulas (the shape of the curve, the affine scale) and about the
      control flow are at this level, and hold of the computed values only
      up to rounding.
    - Rounded ([arith], [standard_model]): every operation rounds, with
      bounded relative and absolute error, and [np.exp] may underflow to 0
      and overflow to [inf].  The finiteness of the log-likelihood is at
      this level.
    - Binary64 ([_f64]): the expressions on Rocq's primitive floats, for the
      facts that hold of particular doubles: the probability that is
      exactly [1.0], two abilities with one score, the exponent that is
      [nan].

    Python [int]s are [Z].

    Effects.  [estimar_proficiencia] prints to standard output and calls
    [scipy.optimize.minimize]; both appear as nodes of a command tree ([Cmd])
    that is run against a solver. *)

From Stdlib Require Import Reals Lra Lia ZArith String List Bool.
From Stdlib Require Import Ascii.
From Stdlib Require Import PrimFloat.
Import ListNotations.

Open Scope R_scope.

(** ** Scale constants *)

Definition THETA_MEDIA : Z := 0.
Definition THETA_DESVIO_PADRAO : Z := 1.
Definition NOTA_ENEM_MEDIA : Z := 500.
Definition NOTA_ENEM_DESVIO_PADRAO : Z := 100.

(** ** Item response model *)

(** An item is the tuple [(a, b, c)]. *)
Definition item : Type := R * R * R.

(** The invariants the data model asks of an item. *)
Definition valid_item (it : item) : Prop :=
  let '(a, _, c) := it in 0 < a /\ 0 <= c < 1.

Definition fator_escala : R := 1.7.

Definition probabilidade_acerto (theta a b c : R) : R :=
  let expoente := - fator_escala * a * (theta - b) in
  let prob := c + (1 - c) * (1 / (1 + exp expoente)) in
  prob.

(** The logistic kernel of the model, [1 / (1 + np.exp(expoente))]. *)
Definition logistic (e : R) : R := 1 / (1 + exp e).

(** ** Values of [np.log]

    A NumPy float is either a finite number or one of the special values.
    [np.log] gives [-inf] at zero and [nan] below zero (with a warning, not
    an exception). *)
Inductive npfloat : Type :=
| Finite (x : R)
| PosInf
| NegInf
| NaN.

Definition np_log (x : R) : npfloat :=
  if Rlt_dec 0 x then Finite (ln x)
  else if Rlt_dec x 0 then NaN
  else NegInf.

(** [+] on NumPy floats. *)
Definition npadd (u v : npfloat) : npfloat :=
  match u, v with
  | Finite x, Finite y => Finite (x + y)
  | NaN, _ | _, NaN => NaN
  | PosInf, NegInf | NegInf, PosInf => NaN
  | PosInf, _ | _, PosInf => PosInf
  | NegInf, _ | _, NegInf => NegInf
  end.

(** Unary [-] on NumPy floats. *)
Definition npneg (u : npfloat) : npfloat :=
  match u with
  | Finite x => Finite (- x)
  | PosInf => NegInf
  | NegInf => PosInf
  | NaN => NaN
  end.

(** ** Exceptions *)

(** The only exception the engine's own code can raise: indexing
    [parametros_itens[i]] past the end of the list. *)
Inductive exn : Type :=
| IndexError.

Inductive result (A : Type) : Type :=
| Ok (a : A)
| Raise (e : exn).
Arguments Ok {A} a.
Arguments Raise {A} e.

(** ** Negative log-likelihood *)

Definition epsilon : R := 1e-9.

(** The body of [for i, resposta in enumerate(respostas)], from index [i] on,
    with the running value of [log_likelihood]. *)
Fixpoint log_verossimilhanca_loop (theta : R) (respostas : list Z) (i : nat)
    (parametros_itens : list item) (log_likelihood : npfloat)
    : result npfloat :=
  match respostas with
  | [] => Ok log_likelihood
  | resposta :: rest =>
      match nth_error parametros_itens i with
      | None => Raise IndexError
      | Some (a, b, c) =>
          let p := probabilidade_acerto theta a b c in
          let log_likelihood' :=
            if (resposta =? 1)%Z
            then npadd log_likelihood (np_log (p + epsilon))
            else npadd log_likelihood (np_log (1 - p + epsilon)) in
          log_verossimilhanca_loop theta rest (S i) parametros_itens
            log_likelihood'
      end
  end.

Definition log_verossimilhanca (theta : R) (respostas : list Z)
    (parametros_itens : list item) : result npfloat :=
  match log_verossimilhanca_loop theta respostas 0 parametros_itens
          (Finite 0.0) with
  | Ok log_likelihood => Ok (npneg log_likelihood)
  | Raise e => Raise e
  end.

(** ** The optimizer interface *)

(** The arguments of one call of [scipy.optimize.minimize]. *)
Record MinimizeCall : Type := {
  mc_fun : R -> list Z -> list item -> result npfloat;
  mc_x0 : R;
  mc_args : list Z * list item;
  mc_method : string;
  mc_bounds : list (R * R)
}.

(** The objective the solver evaluates: [fun(x, *args)]. *)
Definition objective (call : MinimizeCall) (theta : R) : result npfloat :=
  mc_fun call theta (fst (mc_args call)) (snd (mc_args call)).

(** The fields of scipy's [OptimizeResult] the engine reads.  The problem is
    one-dimensional, so the array [x] is given by its single component
    [x[0]]. *)
Record OptimizeResult : Type := {
  success : bool;
  x_0 : R;
  message : string
}.

(** ** Commands: the effects of the estimator *)

Inductive Cmd (A : Type) : Type :=
| Ret (a : A)
| Print (s : string) (k : Cmd A)
| Minimize (call : MinimizeCall) (k : OptimizeResult -> Cmd A).
Arguments Ret {A} a.
Arguments Print {A} s k.
Arguments Minimize {A} call k.

Definition MSG_PADRAO_EXTREMO : string :=
  "Padrão de resposta extremo (todos acertos ou todos erros). Não é possível estimar um theta único.".

Definition MSG_FALHOU : string := "Otimização falhou em convergir: ".

Definition estimar_proficiencia (respostas : list Z)
    (parametros_itens : list item) : Cmd (option R) :=
  if forallb (fun r => (r =? 1)%Z) respostas
     || forallb (fun r => (r =? 0)%Z) respostas
  then Print MSG_PADRAO_EXTREMO (Ret None)
  else
    let theta_inicial := 0.0 in
    Minimize
      {| mc_fun := log_verossimilhanca;
         mc_x0 := theta_inicial;
         mc_args := (respostas, parametros_itens);
         mc_method := "L-BFGS-B";
         mc_bounds := [(-4, 4)] |}
      (fun resultado =>
         if success resultado
         then Ret (Some (x_0 resultado))
         else Print (MSG_FALHOU ++ message resultado)%string (Ret None)).

(** ** Score transformer *)

Definition calcular_nota_tri (theta : option R) : option R :=
  match theta with
  | None => None
  | Some theta =>
      let nota :=
        IZR NOTA_ENEM_MEDIA
        + (theta - IZR THETA_MEDIA)
          * (IZR NOTA_ENEM_DESVIO_PADRAO / IZR THETA_DESVIO_PADRAO) in
      Some nota
  end.

(** ** Running a command *)

(** What an observer sees of a run: the lines printed and the calls of the
    optimizer, in order. *)
Inductive event : Type :=
| EvPrint (s : string)
| EvMinimize (call : MinimizeCall).

Definition is_minimize (e : event) : bool :=
  match e with
  | EvMinimize _ => true
  | EvPrint _ => false
  end.

(** Number of optimizer calls in a trace. *)
Definition optimizer_calls (t : list event) : nat :=
  length (filter is_minimize t).

(** Runs a command against a solver; an exception raised inside the solver
    (by the objective it evaluates) ends the run. *)
Fixpoint run {A : Type} (solver : MinimizeCall -> result OptimizeResult)
    (p : Cmd A) (t : list event) : result A * list event :=
  match p with
  | Ret a => (Ok a, t)
  | Print s k => run solver k (t ++ [EvPrint s])
  | Minimize call k =>
      match solver call with
      | Ok r => run solver (k r) (t ++ [EvMinimize call])
      | Raise e => (Raise e, t ++ [EvMinimize call])
      end
  end.

(** A solver that answers every call with [r] without looking at the
    objective. *)
Definition solver_const (r : OptimizeResult)
    : MinimizeCall -> result OptimizeResult :=
  fun _ => Ok r.

(** A solver that evaluates the objective at the starting point, as every
    solver does first, lets its exception through and otherwise answers
    [r]. *)
Definition solver_probe (r : OptimizeResult)
    : MinimizeCall -> result OptimizeResult :=
  fun call =>
    match objective call (mc_x0 call) with
    | Ok _ => Ok r
    | Raise e => Raise e
    end.

(** ** Vocabulary of the statements *)

(** A response pattern with all answers right or all answers wrong. *)
Definition padrao_extremo (respostas : list Z) : Prop :=
  Forall (fun r => r = 1%Z) respostas \/ Forall (fun r => r = 0%Z) respostas.

(** The call of the optimizer that [estimar_proficiencia] makes. *)
Definition chamada_minimize (respostas : list Z)
    (parametros_itens : list item) : MinimizeCall :=
  {| mc_fun := log_verossimilhanca;
     mc_x0 := 0.0;
     mc_args := (respostas, parametros_itens);
     mc_method := "L-BFGS-B";
     mc_bounds := [(-4, 4)] |}.

(** What one iteration of the loop adds to [log_likelihood]. *)
Definition parcela (theta : R) (resposta : Z) (it : item) : npfloat :=
  let '(a, b, c) := it in
  let p := probabilidade_acerto theta a b c in
  if (resposta =? 1)%Z then np_log (p + epsilon)
  else np_log (1 - p + epsilon).

(** One iteration of the loop on the running [log_likelihood]. *)
Definition acumula (theta : R) (acc : npfloat) (ri : Z * item) : npfloat :=
  npadd acc (parcela theta (fst ri) (snd ri)).

(** An input the preconditions of the estimator exclude: an item outside
    the invariants, lists of different lengths, or nothing to score. *)
Definition invalid_input (respostas : list Z)
    (parametros_itens : list item) : Prop :=
  Exists (fun it => ~ valid_item it) parametros_itens
  \/ length respostas <> length parametros_itens
  \/ respostas = [].

(** ** The same expressions in binary64

    The engine computes in IEEE binary64.  The functions below repeat
    the source over Rocq's primitive floats, which are binary64 with
    round-to-nearest-even; [np.exp] and [np.log] are library code and are
    parameters.
    The literals are the doubles nearest to the decimal constants of the
    source ([0x1.b333333333333p+0] for [1.7]); the integer constants of the
    scale convert exactly. *)

Definition probabilidade_acerto_f64 (np_exp : float -> float)
    (theta a b c : float) : float :=
  (let fator_escala := 0x1.b333333333333p+0 in
   let expoente := - fator_escala * a * (theta - b) in
   let prob := c + (1 - c) * (1 / (1 + np_exp expoente)) in
   prob)%float.

(** The invariants of an item, on doubles. *)
Definition valid_item_f64 (it : float * float * float) : bool :=
  let '(a, _, c) := it in ((0 <? a) && (0 <=? c) && (c <? 1))%float.

Definition calcular_nota_tri_f64 (theta : option float) : option float :=
  match theta with
  | None => None
  | Some theta =>
      let nota := (500 + (theta - 0) * (100 / 1))%float in
      Some nota
  end.

(** ** The negative log-likelihood in binary64 *)

(** The double nearest to the literal [1e-9]. *)
Definition epsilon_f64 : float := 0x1.12e0be826d695p-30.



(** ** Rounded arithmetic

    Between the exact model and binary64.  Every [+], [-], [*], [/] and
    every decimal literal gives the exact value rounded by [rnd]; unary [-]
    and the literals [0.0] and [1] are exact.  [np.exp] gives [fp_exp], where
    [None] is [inf] (overflow), and [np.log] of a positive number gives
    [fp_log].  The values are real numbers, so no operation gives [nan];
    the one place where binary64 does on finite inputs, an exponent
    [inf * 0.0], is looked at on the primitive floats. *)
Record arith : Type := {
  rnd : R -> R;
  fp_exp : R -> option R;
  fp_log : R -> R
}.

(** Bounds on the error of one rounding.  Binary64 with rounding to nearest
    has a relative error of at most [2^-53 < 1e-15] on a normal result and
    an absolute error of at most [2^-1075 < 1e-300] on a subnormal one. *)
Definition unit_roundoff : R := 1e-15.
Definition underflow_unit : R := 1e-300.

(** What is asked of an arithmetic: each rounding is within the two bounds,
    and [np.exp] is never negative.  Nothing is asked of the accuracy of
    [np.exp] and [np.log]. *)
Definition standard_model (F : arith) : Prop :=
  (forall x, Rabs (rnd F x - x) <= unit_roundoff * Rabs x + underflow_unit) /\
  (forall x e, fp_exp F x = Some e -> 0 <= e).

Definition probabilidade_acerto_fl (F : arith) (theta a b c : R) : R :=
  let fator := rnd F fator_escala in
  let expoente := rnd F (rnd F (- fator * a) * rnd F (theta - b)) in
  let logistica :=
    match fp_exp F expoente with
    | Some e => rnd F (1 / rnd F (1 + e))
    | None => 0
    end in
  let prob := rnd F (c + rnd F (rnd F (1 - c) * logistica)) in
  prob.

Definition np_log_fl (F : arith) (x : R) : npfloat :=
  if Rlt_dec 0 x then Finite (fp_log F x)
  else if Rlt_dec x 0 then NaN
  else NegInf.

Definition npadd_fl (F : arith) (u v : npfloat) : npfloat :=
  match u, v with
  | Finite x, Finite y => Finite (rnd F (x + y))
  | _, _ => npadd u v
  end.

Fixpoint log_verossimilhanca_fl_loop (F : arith) (theta : R)
    (respostas : list Z) (i : nat) (parametros_itens : list item)
    (log_likelihood : npfloat) : result npfloat :=
  match respostas with
  | [] => Ok log_likelihood
  | resposta :: rest =>
      match nth_error parametros_itens i with
      | None => Raise IndexError
      | Some (a, b, c) =>
          let p := probabilidade_acerto_fl F theta a b c in
          let epsilon := rnd F epsilon in
          let log_likelihood' :=
            if (resposta =? 1)%Z
            then npadd_fl F log_likelihood (np_log_fl F (rnd F (p + epsilon)))
            else npadd_fl F log_likelihood
                   (np_log_fl F (rnd F (rnd F (1 - p) + epsilon))) in
          log_verossimilhanca_fl_loop F theta rest (S i) parametros_itens
            log_likelihood'
      end
  end.

Definition log_verossimilhanca_fl (F : arith) (theta : R)
    (respostas : list Z) (parametros_itens : list item) : result npfloat :=
  match log_verossimilhanca_fl_loop F theta respostas 0 parametros_itens
          (Finite 0.0) with
  | Ok log_likelihood => Ok (npneg log_likelihood)
  | Raise e => Raise e
  end.

(** The exact arithmetic: nothing is rounded, [np.exp] is [exp] and [np.log]
    is [ln]. *)
Definition exact_arith : arith :=
  {| rnd := fun x => x; fp_exp := fun x => Some (exp x); fp_log := ln |}.

(** An arithmetic that rounds nothing but gives [np.exp] the range of
    binary64: it underflows to [0.0] below [-746] and overflows to [inf]
    above [710]. *)
Definition saturating_arith : arith :=
  {| rnd := fun x => x;
     fp_exp := fun x =>
       if Rlt_dec x (-746) then Some 0
       else if Rlt_dec 710 x then None
       else Some (exp x);
     fp_log := ln |}.

(** * The callers of the engine

    [data_importer.py]: the search of a column name and the loop that
    builds the renaming of a chunk's columns; column labels are strings and
    a frame is seen through the list of its labels.

    [gui_manager.py]: the handlers of the simulado tab.  The window is a
    record of the attributes and widget contents they read and write; what
    they do outside the window (engine, data layer, message boxes, signal)
    is the list of events they return.  The data layer's answer to a query
    and the user's clicks are inputs. *)

(** ** Python dictionaries, as far as [get] and item assignment go *)

Section Dict.

Variables K V : Type.
Variable eqb : K -> K -> bool.

(** A dictionary is the list of its bindings, the latest first. *)
Definition dict : Type := list (K * V).

(** [d.get(k, default)]. *)
Fixpoint dict_get (d : dict) (k : K) (default : V) : V :=
  match d with
  | [] => default
  | (k', v) :: rest => if eqb k' k then v else dict_get rest k default
  end.

(** [k in d]. *)
Definition dict_mem (d : dict) (k : K) : bool :=
  existsb (fun kv => eqb (fst kv) k) d.

(** [d[k] = v]: the old binding of [k], if any, is replaced. *)
Definition dict_set (d : dict) (k : K) (v : V) : dict :=
  (k, v) :: filter (fun kv => negb (eqb (fst kv) k)) d.

End Dict.

Arguments dict_get {K V} eqb d k default.
Arguments dict_mem {K V} eqb d k.
Arguments dict_set {K V} eqb d k v.

(** ** src/database/data_importer.py *)

Definition COLUMN_MAPPING : list (string * list string) :=
  [("id_item", ["ID_ITEM"; "CO_ITEM"]);
   ("area_conhecimento", ["SG_AREA"; "CO_PROVA"]);
   ("param_a", ["NU_PARAM_A"; "PARAM_A"]);
   ("param_b", ["NU_PARAM_B"; "PARAM_B"]);
   ("param_c", ["NU_PARAM_C"; "PARAM_C"]);
   ("gabarito", ["TX_GABARITO"; "GABARITO"])]%string.

(** [col in df_columns]. *)
Definition column_in (col : string) (df_columns : list string) : bool :=
  existsb (String.eqb col) df_columns.

Fixpoint find_column_name (df_columns target_columns : list string)
    : option string :=
  match target_columns with
  | [] => None
  | col :: rest =>
      if column_in col df_columns then Some col
      else find_column_name df_columns rest
  end.

Definition AVISO_COLUNA (db_col : string) : string :=
  ("Aviso: Nenhuma coluna encontrada para '" ++ db_col
   ++ "' neste chunk.")%string.

(** The loop of [import_data_from_csv] that builds [current_mapping] for one
    chunk, over the entries of a column mapping; the second component is
    what it prints.  [if found_col:] is false on [None] and on the empty
    string. *)
Fixpoint build_current_mapping (mapping : list (string * list string))
    (chunk_columns : list string) (current_mapping : dict string string)
    (printed : list string) : dict string string * list string :=
  match mapping with
  | [] => (current_mapping, printed)
  | (db_col, possible_cols) :: rest =>
      match find_column_name chunk_columns possible_cols with
      | Some found_col =>
          if String.eqb found_col EmptyString
          then build_current_mapping rest chunk_columns current_mapping
                 (printed ++ [AVISO_COLUNA db_col])
          else build_current_mapping rest chunk_columns
                 (dict_set String.eqb current_mapping found_col db_col)
                 printed
      | None =>
          build_current_mapping rest chunk_columns current_mapping
            (printed ++ [AVISO_COLUNA db_col])
      end
  end.

(** All the candidate names of a column mapping. *)
Definition all_alternatives (mapping : list (string * list string))
    : list string :=
  concat (map snd mapping).

Fixpoint distinct_names (l : list string) : bool :=
  match l with
  | [] => true
  | x :: rest => negb (column_in x rest) && distinct_names rest
  end.

(** A column mapping in which no candidate name is listed twice and none
    is the empty string, as in [COLUMN_MAPPING]. *)
Definition mapping_ok (mapping : list (string * list string)) : bool :=
  distinct_names (all_alternatives mapping)
  && negb (column_in EmptyString (all_alternatives mapping)).

(** Whether a chunk has none of the candidate columns of an entry. *)
Definition column_missing (chunk_columns : list string)
    (entry : string * list string) : bool :=
  match find_column_name chunk_columns (snd entry) with
  | None => true
  | Some _ => false
  end.

(** ** src/gui/gui_manager.py: the simulado *)

(** A row of the items of a simulado, as [fetch_random_items] selects them.
    [gabarito] may be NULL in the table. *)
Record Row : Type := {
  id_item : Z;
  gabarito : option string;
  param_a : R;
  param_b : R;
  param_c : R
}.

(** [user_answer == gabarito], where a NULL [gabarito] equals no string. *)
Definition answer_matches (user_answer : string) (gab : option string)
    : bool :=
  match gab with
  | Some g => String.eqb user_answer g
  | None => false
  end.

(** The loop of [handle_finish_simulado] over the rows, with its three
    accumulators. *)
Fixpoint corrigir (rows : list Row) (user_answers : dict Z string)
    (respostas_vetor : list Z) (parametros_itens : list item) (acertos : Z)
    : list Z * list item * Z :=
  match rows with
  | [] => (respostas_vetor, parametros_itens, acertos)
  | row :: rest =>
      let item_id := id_item row in
      let user_answer := dict_get Z.eqb user_answers item_id EmptyString in
      let params := (param_a row, param_b row, param_c row) in
      if answer_matches user_answer (gabarito row)
      then corrigir rest user_answers (respostas_vetor ++ [1%Z])
             (parametros_itens ++ [params]) (acertos + 1)%Z
      else corrigir rest user_answers (respostas_vetor ++ [0%Z])
             (parametros_itens ++ [params]) acertos
  end.

(** The response and the item that one row contributes. *)
Definition resposta_de (user_answers : dict Z string) (row : Row) : Z :=
  if answer_matches (dict_get Z.eqb user_answers (id_item row) EmptyString)
       (gabarito row)
  then 1%Z else 0%Z.

Definition params_de (row : Row) : item :=
  (param_a row, param_b row, param_c row).

(** The three results of the correction loop, from empty accumulators. *)
Definition respostas_de (rows : list Row) (user_answers : dict Z string)
    : list Z :=
  fst (fst (corrigir rows user_answers [] [] 0%Z)).

Definition itens_de (rows : list Row) (user_answers : dict Z string)
    : list item :=
  snd (fst (corrigir rows user_answers [] [] 0%Z)).

Definition acertos_de (rows : list Row) (user_answers : dict Z string) : Z :=
  snd (corrigir rows user_answers [] [] 0%Z).

(** [s.split(sep)] for a separator of one character. *)
Fixpoint split_char (sep : Ascii.ascii) (s : string) : list string :=
  match s with
  | EmptyString => [EmptyString]
  | String ch rest =>
      if Ascii.eqb ch sep then EmptyString :: split_char sep rest
      else
        match split_char sep rest with
        | piece :: more => String ch piece :: more
        | [] => [String ch EmptyString]
        end
  end.

(** [s[:-1]].  Strings are byte strings here: this is the Python slice when
    the last character is an ASCII one, as the closing parenthesis is. *)
Fixpoint drop_last (s : string) : string :=
  match s with
  | EmptyString => EmptyString
  | String ch EmptyString => EmptyString
  | String ch rest => String ch (drop_last rest)
  end.

(** [text.split('(')[1][:-1]]; [None] stands for the [IndexError] of
    [[1]]. *)
Definition area_sigla (text : string) : option string :=
  match nth_error (split_char "("%char text) 1 with
  | Some piece => Some (drop_last piece)
  | None => None
  end.

(** [ch in s]. *)
Fixpoint has_char (ch : ascii) (s : string) : bool :=
  match s with
  | EmptyString => false
  | String c rest => Ascii.eqb c ch || has_char ch rest
  end.

(** The entries of [area_combo]. *)
Definition AREAS : list string :=
  ["Linguagens e Códigos (LC)"; "Ciências Humanas (CH)";
   "Ciências da Natureza (CN)"; "Matemática (MT)"]%string.

(** Exceptions that can leave a handler of the window. *)
Inductive gui_exn : Type :=
| EngineError (e : exn)
| AttributeError
| TypeError
| GuiIndexError.

Inductive gresult (A : Type) : Type :=
| GOk (a : A)
| GRaise (e : gui_exn).
Arguments GOk {A} a.
Arguments GRaise {A} e.

(** What a handler does to the world outside the window: the engine's own
    events, the calls of the data layer, the message boxes and the signal.
    A message box that formats numbers carries the numbers. *)
Inductive gui_event : Type :=
| GEngine (e : event)
| GFetchRandomItems (area : string) (count : Z)
| GWarning (title text : string)
| GCritical (title text : string)
| GSaveSimulationResult (area : string) (nota : R) (acertos total : Z)
| GInformation (title : string) (acertos total_itens : Z) (nota : R)
| GSimulationFinished.

(** The part of [MainWindow] the simulado handlers read and write; a label
    that formats numbers holds the numbers. *)
Record MainWindow : Type := {
  area_combo_text : string;
  questoes_spinbox_value : Z;
  current_simulado_items : option (list Row);
  current_question_index : nat;
  user_answers : dict Z string;
  checked_button : option string;
  next_button_text : string;
  question_label : Z * Z;
  item_id_label : option Z;
  simulado_stack_index : Z
}.

Definition set_items (v : option (list Row)) (w : MainWindow) : MainWindow :=
  {| area_combo_text := area_combo_text w;
     questoes_spinbox_value := questoes_spinbox_value w;
     current_simulado_items := v;
     current_question_index := current_question_index w;
     user_answers := user_answers w;
     checked_button := checked_button w;
     next_button_text := next_button_text w;
     question_label := question_label w;
     item_id_label := item_id_label w;
     simulado_stack_index := simulado_stack_index w |}.

Definition set_index (v : nat) (w : MainWindow) : MainWindow :=
  {| area_combo_text := area_combo_text w;
     questoes_spinbox_value := questoes_spinbox_value w;
     current_simulado_items := current_simulado_items w;
     current_question_index := v;
     user_answers := user_answers w;
     checked_button := checked_button w;
     next_button_text := next_button_text w;
     question_label := question_label w;
     item_id_label := item_id_label w;
     simulado_stack_index := simulado_stack_index w |}.

Definition set_answers (v : dict Z string) (w : MainWindow) : MainWindow :=
  {| area_combo_text := area_combo_text w;
     questoes_spinbox_value := questoes_spinbox_value w;
     current_simulado_items := current_simulado_items w;
     current_question_index := current_question_index w;
     user_answers := v;
     checked_button := checked_button w;
     next_button_text := next_button_text w;
     question_label := question_label w;
     item_id_label := item_id_label w;
     simulado_stack_index := simulado_stack_index w |}.

Definition set_checked (v : option string) (w : MainWindow) : MainWindow :=
  {| area_combo_text := area_combo_text w;
     questoes_spinbox_value := questoes_spinbox_value w;
     current_simulado_items := current_simulado_items w;
     current_question_index := current_question_index w;
     user_answers := user_answers w;
     checked_button := v;
     next_button_text := next_button_text w;
     question_label := question_label w;
     item_id_label := item_id_label w;
     simulado_stack_index := simulado_stack_index w |}.

Definition set_stack (v : Z) (w : MainWindow) : MainWindow :=
  {| area_combo_text := area_combo_text w;
     questoes_spinbox_value := questoes_spinbox_value w;
     current_simulado_items := current_simulado_items w;
     current_question_index := current_question_index w;
     user_answers := user_answers w;
     checked_button := checked_button w;
     next_button_text := next_button_text w;
     question_label := question_label w;
     item_id_label := item_id_label w;
     simulado_stack_index := v |}.

(** The widgets [display_current_question] rewrites. *)
Definition set_display (label : Z * Z) (id : Z) (button : string)
    (w : MainWindow) : MainWindow :=
  {| area_combo_text := area_combo_text w;
     questoes_spinbox_value := questoes_spinbox_value w;
     current_simulado_items := current_simulado_items w;
     current_question_index := current_question_index w;
     user_answers := user_answers w;
     checked_button := None;
     next_button_text := button;
     question_label := label;
     item_id_label := Some id;
     simulado_stack_index := simulado_stack_index w |}.

Definition FINALIZAR : string := "Finalizar Simulado".
Definition PROXIMA : string := "Próxima Questão".

Definition display_current_question (w : MainWindow) : gresult MainWindow :=
  match current_simulado_items w with
  | None => GRaise TypeError
  | Some rows =>
      let total_questions := Z.of_nat (length rows) in
      let index := current_question_index w in
      match nth_error rows index with
      | None => GRaise GuiIndexError
      | Some row =>
          let button :=
            if (Z.of_nat index =? total_questions - 1)%Z
            then FINALIZAR else PROXIMA in
          GOk (set_display ((Z.of_nat index + 1)%Z, total_questions)
                 (id_item row) button w)
      end
  end.

Definition handle_start_simulado (fetched : option (list Row))
    (w : MainWindow) : gresult MainWindow * list gui_event :=
  match area_sigla (area_combo_text w) with
  | None => (GRaise GuiIndexError, [])
  | Some area_texto =>
      let num_questoes := questoes_spinbox_value w in
      let fetch := GFetchRandomItems area_texto num_questoes in
      let w1 := set_items fetched w in
      let aviso :=
        GWarning "Erro"
          "Não foi possível carregar o número de questões solicitado do banco de dados para esta área." in
      match fetched with
      | None => (GOk w1, [fetch; aviso])
      | Some rows =>
          if (Z.of_nat (length rows) <? num_questoes)%Z
          then (GOk w1, [fetch; aviso])
          else
            match display_current_question
                    (set_answers [] (set_index 0 w1)) with
            | GOk w2 => (GOk (set_stack 1 w2), [fetch])
            | GRaise e => (GRaise e, [fetch])
            end
      end
  end.

Definition handle_finish_simulado
    (solver : MinimizeCall -> result OptimizeResult) (w : MainWindow)
    : gresult MainWindow * list gui_event :=
  match current_simulado_items w with
  | None => (GRaise AttributeError, [])
  | Some rows =>
      let '(respostas_vetor, parametros_itens, acertos) :=
        corrigir rows (user_answers w) [] [] 0%Z in
      let '(theta, eventos) :=
        run solver (estimar_proficiencia respostas_vetor parametros_itens)
          [] in
      match theta with
      | Raise e => (GRaise (EngineError e), map GEngine eventos)
      | Ok theta =>
          match calcular_nota_tri theta with
          | None =>
              (GOk (set_stack 0 w),
               map GEngine eventos
               ++ [GCritical "Erro de Cálculo"
                     "Não foi possível calcular a nota TRI. O padrão de respostas pode ser extremo (todos acertos ou todos erros)."])
          | Some nota =>
              match area_sigla (area_combo_text w) with
              | None => (GRaise GuiIndexError, map GEngine eventos)
              | Some area_texto =>
                  let total_itens := Z.of_nat (length rows) in
                  (GOk (set_stack 0 w),
                   map GEngine eventos
                   ++ [GSaveSimulationResult area_texto nota acertos
                         total_itens;
                       GInformation "Simulado Finalizado" acertos
                         total_itens nota;
                       GSimulationFinished])
              end
          end
      end
  end.

Definition handle_next_question
    (solver : MinimizeCall -> result OptimizeResult) (w : MainWindow)
    : gresult MainWindow * list gui_event :=
  match checked_button w with
  | None =>
      (GOk w, [GWarning "Atenção" "Por favor, selecione uma alternativa."])
  | Some answer =>
      match current_simulado_items w with
      | None => (GRaise AttributeError, [])
      | Some rows =>
          match nth_error rows (current_question_index w) with
          | None => (GRaise GuiIndexError, [])
          | Some row =>
              let item_id := id_item row in
              let w1 :=
                set_answers (dict_set Z.eqb (user_answers w) item_id answer)
                  w in
              if String.eqb (next_button_text w1) FINALIZAR
              then handle_finish_simulado solver w1
              else
                (display_current_question
                   (set_index (current_question_index w1 + 1) w1), [])
          end
      end
  end.

(** The message box [handle_finish_simulado] shows when there is no
    score. *)
Definition CRITICO_SEM_NOTA : gui_event :=
  GCritical "Erro de Cálculo"
    "Não foi possível calcular a nota TRI. O padrão de respostas pode ser extremo (todos acertos ou todos erros).".

(** The column [percentual_acertos] that [update_dashboard] computes for a
    saved result. *)
Definition percentual_acertos (acertos total_itens : Z) : R :=
  (IZR acertos / IZR total_itens) * 100.

(** A solver whose answer lies within the first pair of bounds of the
    call, when that interval is not empty. *)
Definition respects_bounds
    (solver : MinimizeCall -> result OptimizeResult) : Prop :=
  forall call r lo hi,
    solver call = Ok r ->
    nth_error (mc_bounds call) 0 = Some (lo, hi) ->
    lo <= hi ->
    lo <= x_0 r <= hi.

(** A solver that answers with the middle of the bounds, for examples. *)
Definition solver_midpoint : MinimizeCall -> result OptimizeResult :=
  fun call =>
    match nth_error (mc_bounds call) 0 with
    | Some (lo, hi) =>
        Ok {| success := true; x_0 := (lo + hi) / 2; message := EmptyString |}
    | None =>
        Ok {| success := true; x_0 := mc_x0 call; message := EmptyString |}
    end.

(** What the user does on the simulado tab.  Pressing the start button
    comes with the answer of the data layer to the query it triggers. *)
Inductive user_action : Type :=
| ClickStart (fetched : option (list Row))
| Select (text : string)
| ClickNext.

Definition step (solver : MinimizeCall -> result OptimizeResult)
    (w : MainWindow) (act : user_action)
    : gresult MainWindow * list gui_event :=
  match act with
  | ClickStart fetched => handle_start_simulado fetched w
  | Select text => (GOk (set_checked (Some text) w), [])
  | ClickNext => handle_next_question solver w
  end.

(** A sequence of actions; it stops at the first exception. *)
Fixpoint steps (solver : MinimizeCall -> result OptimizeResult)
    (w : MainWindow) (acts : list user_action)
    : gresult MainWindow * list gui_event :=
  match acts with
  | [] => (GOk w, [])
  | act :: rest =>
      match step solver w act with
      | (GOk w', evs) =>
          let '(r, evs') := steps solver w' rest in (r, evs ++ evs')
      | (GRaise e, evs) => (GRaise e, evs)
      end
  end.

(** Choosing an alternative and pressing the button, once per answer. *)
Definition responder (answers : list string) : list user_action :=
  flat_map (fun a => [Select a; ClickNext]) answers.

(** A whole simulado: the start, answered by the data layer with [rows],
    and one answer per question. *)
Definition simulado_completo (rows : list Row) (answers : list string)
    : list user_action :=
  ClickStart (Some rows) :: responder answers.

(** The window during the test, at question [k] with the answers [ua]
    recorded so far. *)
Definition em_prova (rows : list Row) (text : string) (k : nat)
    (ua : dict Z string) (w : MainWindow) : Prop :=
  current_simulado_items w = Some rows /\
  current_question_index w = k /\
  user_answers w = ua /\
  area_combo_text w = text /\
  next_button_text w
  = (if (Z.of_nat k =? Z.of_nat (length rows) - 1)%Z
     then FINALIZAR else PROXIMA).

(** The window is consistent during a test over [rows]: the index points
    at a row, the labels show that row and its number, and the button
    announces the end exactly on the last row. *)
Definition prova_ok (rows : list Row) (text : string) (w : MainWindow)
    : Prop :=
  exists k ua row,
    em_prova rows text k ua w /\
    nth_error rows k = Some row /\
    question_label w = ((Z.of_nat k + 1)%Z, Z.of_nat (length rows)) /\
    item_id_label w = Some (id_item row).

(** Actions available on the page of the test. *)
Definition on_prova_page (act : user_action) : Prop :=
  match act with
  | ClickStart _ => False
  | Select _ | ClickNext => True
  end.

(** The answers recorded after answering the given rows in order. *)
Definition registrar (ua : dict Z string) (pairs : list (Row * string))
    : dict Z string :=
  fold_left (fun d ra => dict_set Z.eqb d (id_item (fst ra)) (snd ra))
    pairs ua.

(** The response that answer [a] earns on [row]. *)
Definition resposta_a (ra : Row * string) : Z :=
  if answer_matches (snd ra) (gabarito (fst ra)) then 1%Z else 0%Z.

(** A simulado of five items and a window in the middle of it, for
    examples. *)
Definition rows_exemplo : list Row :=
  [ {| id_item := 101; gabarito := Some "A"%string;
       param_a := 1.2; param_b := -0.5; param_c := 0.2 |};
    {| id_item := 102; gabarito := Some "C"%string;
       param_a := 0.9; param_b := 0.3; param_c := 0.25 |};
    {| id_item := 103; gabarito := Some "E"%string;
       param_a := 1.5; param_b := -1.0; param_c := 0.15 |};
    {| id_item := 104; gabarito := Some "B"%string;
       param_a := 1.1; param_b := 0.0; param_c := 0.2 |};
    {| id_item := 105; gabarito := Some "D"%string;
       param_a := 1.0; param_b := 1.2; param_c := 0.25 |} ].

Definition janela_exemplo (answers : dict Z string) : MainWindow :=
  {| area_combo_text := "Matemática (MT)";
     questoes_spinbox_value := 5;
     current_simulado_items := Some rows_exemplo;
     current_question_index := 4;
     user_answers := answers;
     checked_button := None;
     next_button_text := FINALIZAR;
     question_label := (5, 5)%Z;
     item_id_label := Some 105%Z;
     simulado_stack_index := 1 |}.

(** The window before any simulado was started, set to five questions. *)
Definition janela_inicial : MainWindow :=
  {| area_combo_text := "Linguagens e Códigos (LC)";
     questoes_spinbox_value := 5;
     current_simulado_items := None;
     current_question_index := 0;
     user_answers := [];
     checked_button := None;
     next_button_text := PROXIMA;
     question_label := (1, 0)%Z;
     item_id_label := None;
     simulado_stack_index := 0 |}.

(** * Theorems *)

(** ** Facts about the logistic curve *)

Lemma logistic_pos e : 0 < logistic e.
Proof.
  unfold logistic. pose proof (exp_pos e).
  apply Rdiv_lt_0_compat; lra.
Qed.

Lemma logistic_lt_1 e : logistic e < 1.
Proof.
  unfold logistic. pose proof (exp_pos e) as He.
  apply (Rmult_lt_reg_r (1 + exp e)); [lra|].
  unfold Rdiv. rewrite Rmult_assoc, Rinv_l by lra. lra.
Qed.

Lemma logistic_decreasing e1 e2 : e1 < e2 -> logistic e2 < logistic e1.
Proof.
  intros H. unfold logistic.
  pose proof (exp_pos e1). pose proof (exp_increasing _ _ H).
  unfold Rdiv. rewrite !Rmult_1_l.
  apply Rinv_lt_contravar; [|lra].
  apply Rmult_lt_0_compat; lra.
Qed.

Lemma logistic_0 : logistic 0 = 1 / 2.
Proof. unfold logistic. rewrite exp_0. lra. Qed.

Lemma probabilidade_acerto_logistic theta a b c :
  probabilidade_acerto theta a b c
  = c + (1 - c) * logistic (- fator_escala * a * (theta - b)).
Proof. reflexivity. Qed.

(** The curve of one item whose discrimination is positive and whose
    guessing parameter is below one. *)
Section Curve.

Variables a b c : R.
Hypothesis a_pos : 0 < a.
Hypothesis c_lt_1 : c < 1.

Lemma expoente_decreasing t1 t2 :
  t1 < t2 ->
  - fator_escala * a * (t2 - b) < - fator_escala * a * (t1 - b).
Proof.
  intros Ht. unfold fator_escala.
  assert (0 < a * (t2 - t1)) by (apply Rmult_lt_0_compat; lra).
  lra.
Qed.

Lemma probabilidade_acerto_strict_mono t1 t2 :
  t1 < t2 ->
  probabilidade_acerto t1 a b c < probabilidade_acerto t2 a b c.
Proof.
  intros Ht. rewrite !probabilidade_acerto_logistic.
  pose proof (logistic_decreasing _ _ (expoente_decreasing t1 t2 Ht)).
  apply Rplus_lt_compat_l, Rmult_lt_compat_l; lra.
Qed.

Lemma probabilidade_acerto_range theta :
  c < probabilidade_acerto theta a b c < 1.
Proof.
  rewrite probabilidade_acerto_logistic.
  pose proof (logistic_pos (- fator_escala * a * (theta - b))) as Hp.
  pose proof (logistic_lt_1 (- fator_escala * a * (theta - b))) as Hl.
  set (l := logistic _) in *.
  assert (0 < (1 - c) * l) by (apply Rmult_lt_0_compat; lra).
  assert ((1 - c) * l < (1 - c) * 1) by (apply Rmult_lt_compat_l; lra).
  lra.
Qed.

End Curve.

(** ** The curve under rounding *)


Section Rounded.

Variable F : arith.
Hypothesis HF : standard_model F.








End Rounded.






(** ** Score transformer *)

(** C2. [calcular_nota_tri] hands [None] back unchanged, and on every theta
    returns exactly [500 + (theta - 0) * (100 / 1)], so it has no failure of
    its own; theta 0, 1 and -1 give 500, 600 and 400. *)
Theorem calcular_nota_tri_affine :
  calcular_nota_tri None = None /\
  (forall theta : R,
     calcular_nota_tri (Some theta)
     = Some (500 + (theta - 0) * (100 / 1))) /\
  calcular_nota_tri (Some 0) = Some 500 /\
  calcular_nota_tri (Some 1) = Some 600 /\
  calcular_nota_tri (Some (-1)) = Some 400.
Proof.
  unfold calcular_nota_tri, NOTA_ENEM_MEDIA, THETA_MEDIA,
    NOTA_ENEM_DESVIO_PADRAO, THETA_DESVIO_PADRAO.
  repeat split; try intros theta; f_equal; lra.
Qed.

Example calcular_nota_tri_lower_bound :
  calcular_nota_tri (Some (-4)) = Some 100.
Proof.
  unfold calcular_nota_tri, NOTA_ENEM_MEDIA, THETA_MEDIA,
    NOTA_ENEM_DESVIO_PADRAO, THETA_DESVIO_PADRAO.
  f_equal. lra.
Qed.

(** ** The guard on extreme patterns *)

Lemma forallb_eqb_Forall (v : Z) (rs : list Z) :
  forallb (fun r => (r =? v)%Z) rs = true <-> Forall (fun r => r = v) rs.
Proof.
  rewrite forallb_forall, Forall_forall.
  split; intros H r Hr; apply Z.eqb_eq; auto.
Qed.

Lemma padrao_extremo_guard (rs : list Z) :
  forallb (fun r => (r =? 1)%Z) rs || forallb (fun r => (r =? 0)%Z) rs = true
  <-> padrao_extremo rs.
Proof.
  unfold padrao_extremo.
  rewrite orb_true_iff, !forallb_eqb_Forall. reflexivity.
Qed.

Lemma padrao_extremo_guard_false (rs : list Z) :
  ~ padrao_extremo rs ->
  forallb (fun r => (r =? 1)%Z) rs || forallb (fun r => (r =? 0)%Z) rs
  = false.
Proof.
  intros H. apply not_true_is_false. now rewrite padrao_extremo_guard.
Qed.

Lemma estimar_proficiencia_extremo (rs : list Z) (its : list item) :
  padrao_extremo rs ->
  estimar_proficiencia rs its = Print MSG_PADRAO_EXTREMO (Ret None).
Proof.
  intros H. apply padrao_extremo_guard in H.
  unfold estimar_proficiencia. now rewrite H.
Qed.

Lemma estimar_proficiencia_minimize (rs : list Z) (its : list item) :
  ~ padrao_extremo rs ->
  estimar_proficiencia rs its
  = Minimize (chamada_minimize rs its)
      (fun resultado =>
         if success resultado
         then Ret (Some (x_0 resultado))
         else Print (MSG_FALHOU ++ message resultado)%string (Ret None)).
Proof.
  intros H. apply padrao_extremo_guard_false in H.
  unfold estimar_proficiencia. now rewrite H.
Qed.

Lemma optimizer_calls_print (t : list event) (s : string) :
  optimizer_calls (t ++ [EvPrint s]) = optimizer_calls t.
Proof.
  unfold optimizer_calls. rewrite filter_app, length_app. simpl.
  apply Nat.add_0_r.
Qed.

Lemma optimizer_calls_minimize (t : list event) (call : MinimizeCall) :
  optimizer_calls (t ++ [EvMinimize call]) = S (optimizer_calls t).
Proof.
  unfold optimizer_calls. rewrite filter_app, length_app. simpl.
  apply Nat.add_1_r.
Qed.

(** C1. On a response vector of length at least one whose answers are all 1
    or all 0, with valid items of the same length, the estimate is the
    absent value: the run prints the notice and returns [None], whatever the
    solver, and the trace gains no call of the optimizer. *)
Theorem estimar_proficiencia_degenerate (rs : list Z) (its : list item) :
  (1 <= length rs)%nat ->
  length its = length rs ->
  Forall valid_item its ->
  padrao_extremo rs ->
  forall solver t,
    run solver (estimar_proficiencia rs its) t
    = (Ok None, t ++ [EvPrint MSG_PADRAO_EXTREMO]) /\
    optimizer_calls (snd (run solver (estimar_proficiencia rs its) t))
    = optimizer_calls t.
Proof.
  intros _ _ _ H solver t.
  rewrite (estimar_proficiencia_extremo rs its H). simpl.
  split; [reflexivity | apply optimizer_calls_print].
Qed.

Lemma estimar_proficiencia_degenerate_witness :
  let rs := [1; 1; 1]%Z in
  let its := [(1.2, -0.5, 0.2); (0.9, 0.3, 0.25); (1.5, -1.0, 0.15)] in
  let solver :=
    solver_probe {| success := true; x_0 := 4; message := "CONVERGENCE" |} in
  run solver (estimar_proficiencia rs its) []
  = (Ok None, [] ++ [EvPrint MSG_PADRAO_EXTREMO]) /\
  optimizer_calls (snd (run solver (estimar_proficiencia rs its) []))
  = optimizer_calls [].
Proof.
  intros rs its solver.
  apply (estimar_proficiencia_degenerate rs its).
  - simpl. lia.
  - reflexivity.
  - repeat constructor; simpl; lra.
  - left. repeat constructor.
Defined.

(** C9. On the empty response vector, with any item list, both [all(...)]
    tests hold vacuously: the run prints the notice of the extreme pattern
    and returns [None], raises nothing and does not call the optimizer. *)
Theorem estimar_proficiencia_empty (its : list item) :
  padrao_extremo [] /\
  estimar_proficiencia [] its = Print MSG_PADRAO_EXTREMO (Ret None) /\
  forall solver t,
    run solver (estimar_proficiencia [] its) t
    = (Ok None, t ++ [EvPrint MSG_PADRAO_EXTREMO]) /\
    optimizer_calls (snd (run solver (estimar_proficiencia [] its) t))
    = optimizer_calls t.
Proof.
  split; [left; constructor|].
  split; [reflexivity|].
  intros solver t. simpl. split; [reflexivity | apply optimizer_calls_print].
Qed.

(** A single wrong answer is an extreme pattern as well: no theta, and so
    no score. *)
Example estimar_proficiencia_single_error :
  estimar_proficiencia [0]%Z [(1.0, 0.0, 0.2)]
  = Print MSG_PADRAO_EXTREMO (Ret None) /\
  calcular_nota_tri None = None.
Proof. split; reflexivity. Qed.

(** A mixed pattern goes to the optimizer, started at 0 and bounded to
    [[-4, 4]]. *)
Example estimar_proficiencia_mixed :
  exists k,
    estimar_proficiencia [1; 0; 1; 1; 0]%Z
      [(1.2, -0.5, 0.2); (0.9, 0.3, 0.25); (1.5, -1.0, 0.15);
       (1.1, 0.0, 0.2); (1.0, 1.2, 0.25)]
    = Minimize
        {| mc_fun := log_verossimilhanca;
           mc_x0 := 0.0;
           mc_args := ([1; 0; 1; 1; 0]%Z,
                       [(1.2, -0.5, 0.2); (0.9, 0.3, 0.25); (1.5, -1.0, 0.15);
                        (1.1, 0.0, 0.2); (1.0, 1.2, 0.25)]);
           mc_method := "L-BFGS-B";
           mc_bounds := [(-4, 4)] |} k.
Proof. eexists. reflexivity. Qed.

(** ** The loop of the likelihood as a fold *)

Section Loop.

Variable theta : R.

Let step := acumula theta.

Lemma log_verossimilhanca_loop_fold (rs : list Z) :
  forall (pre suf extra : list item) (acc : npfloat),
    length rs = length suf ->
    log_verossimilhanca_loop theta rs (length pre) (pre ++ suf ++ extra) acc
    = Ok (fold_left step (combine rs suf) acc).
Proof.
  induction rs as [|r rs IH]; intros pre suf extra acc Hlen.
  - reflexivity.
  - destruct suf as [|[[a b] c] suf]; [discriminate|].
    injection Hlen as Hlen. cbn [log_verossimilhanca_loop].
    rewrite nth_error_app2, Nat.sub_diag by reflexivity.
    cbn [app nth_error combine fold_left].
    set (acc' := if (r =? 1)%Z then _ else _).
    pose proof (IH (pre ++ [(a, b, c)]) suf extra acc' Hlen) as IH'.
    rewrite <- app_assoc, length_app, Nat.add_1_r in IH'.
    cbn [app length] in IH'. rewrite IH'.
    subst acc'. do 2 f_equal. unfold step, acumula, parcela. cbn [fst snd].
    destruct (r =? 1)%Z; reflexivity.
Qed.

Lemma log_verossimilhanca_fold (rs : list Z) (its extra : list item) :
  length rs = length its ->
  log_verossimilhanca theta rs (its ++ extra)
  = Ok (npneg (fold_left step (combine rs its) (Finite 0.0))).
Proof.
  intros Hlen. unfold log_verossimilhanca.
  now rewrite (log_verossimilhanca_loop_fold rs [] its extra _ Hlen).
Qed.

Lemma log_verossimilhanca_fold_eq (rs : list Z) (its : list item) :
  length rs = length its ->
  log_verossimilhanca theta rs its
  = Ok (npneg (fold_left step (combine rs its) (Finite 0.0))).
Proof.
  intros Hlen. rewrite <- (app_nil_r its) at 1.
  now apply log_verossimilhanca_fold.
Qed.

Lemma log_verossimilhanca_loop_short (rs : list Z) :
  forall (its : list item) (i : nat) (acc : npfloat),
    (i <= length its < i + length rs)%nat ->
    log_verossimilhanca_loop theta rs i its acc = Raise IndexError.
Proof.
  induction rs as [|r rs IH]; intros its i acc Hlen.
  - simpl in Hlen. lia.
  - cbn [log_verossimilhanca_loop].
    destruct (nth_error its i) as [[[a b] c]|] eqn:E; [|reflexivity].
    assert (i < length its)%nat by (apply nth_error_Some; congruence).
    apply IH. simpl in Hlen. lia.
Qed.

Lemma fold_step_finite (l : list (Z * item)) :
  Forall (fun ri => exists v, parcela theta (fst ri) (snd ri) = Finite v) l ->
  forall x, exists y, fold_left step l (Finite x) = Finite y.
Proof.
  induction 1 as [|ri l [v Hv] _ IH]; intros x; simpl.
  - now exists x.
  - unfold step at 1, acumula. rewrite Hv. simpl. apply IH.
Qed.

End Loop.

Lemma np_log_pos (x : R) : 0 < x -> np_log x = Finite (ln x).
Proof.
  intros H. unfold np_log. destruct (Rlt_dec 0 x); [reflexivity | contradiction].
Qed.

Lemma npneg_npadd (u v : npfloat) :
  npneg (npadd u v) = npadd (npneg u) (npneg v).
Proof.
  destruct u, v; simpl; try reflexivity. f_equal. ring.
Qed.

Lemma epsilon_pos : 0 < epsilon.
Proof. unfold epsilon. lra. Qed.

Lemma log_arguments_pos (theta a b c : R) :
  valid_item (a, b, c) ->
  0 < probabilidade_acerto theta a b c + epsilon /\
  0 < 1 - probabilidade_acerto theta a b c + epsilon.
Proof.
  intros [_ [Hc0 Hc1]].
  pose proof (probabilidade_acerto_range a b c Hc1 theta).
  pose proof epsilon_pos. lra.
Qed.

(** ** The log-likelihood under rounding *)

Lemma standard_model_exact : standard_model exact_arith.
Proof.
  split.
  - intros x. cbn. replace (x - x) with 0 by ring. rewrite Rabs_R0.
    pose proof (Rabs_pos x). unfold unit_roundoff, underflow_unit. nra.
  - intros x e [= <-]. left. apply exp_pos.
Qed.


Lemma probabilidade_acerto_fl_exact (theta a b c : R) :
  probabilidade_acerto_fl exact_arith theta a b c
  = probabilidade_acerto theta a b c.
Proof. reflexivity. Qed.

Lemma npadd_fl_exact (u v : npfloat) : npadd_fl exact_arith u v = npadd u v.
Proof. destruct u, v; reflexivity. Qed.

Lemma log_verossimilhanca_fl_loop_exact (theta : R) (rs : list Z) :
  forall (i : nat) (its : list item) (acc : npfloat),
    log_verossimilhanca_fl_loop exact_arith theta rs i its acc
    = log_verossimilhanca_loop theta rs i its acc.
Proof.
  induction rs as [|r rs IH]; intros i its acc; [reflexivity|].
  cbn [log_verossimilhanca_fl_loop log_verossimilhanca_loop].
  destruct (nth_error its i) as [[[a b] c]|]; [|reflexivity].
  rewrite IH, probabilidade_acerto_fl_exact, !npadd_fl_exact.
  reflexivity.
Qed.

Lemma log_verossimilhanca_fl_exact (theta : R) (rs : list Z)
    (its : list item) :
  log_verossimilhanca_fl exact_arith theta rs its
  = log_verossimilhanca theta rs its.
Proof.
  unfold log_verossimilhanca_fl, log_verossimilhanca.
  now rewrite log_verossimilhanca_fl_loop_exact.
Qed.

Section RoundedLoop.

Variable F : arith.
Hypothesis HF : standard_model F.



End RoundedLoop.



(** Without the floor the logarithm would be taken at 0.  Where [np.exp]
    underflows the computed probability is exactly 1 and [1 - p] is 0;
    where it overflows, an item with [c = 0] has the computed probability
    0. *)
Lemma epsilon_floor_needed :
  valid_item (5, -3, 0.2) /\ valid_item (5, 0, 0) /\
  probabilidade_acerto_fl saturating_arith 100 5 (-3) 0.2 = 1 /\
  np_log_fl saturating_arith
    (1 - probabilidade_acerto_fl saturating_arith 100 5 (-3) 0.2) = NegInf /\
  probabilidade_acerto_fl saturating_arith (-100) 5 0 0 = 0 /\
  np_log_fl saturating_arith
    (probabilidade_acerto_fl saturating_arith (-100) 5 0 0) = NegInf.
Proof.
  assert (H1 : probabilidade_acerto_fl saturating_arith 100 5 (-3) 0.2 = 1).
  { unfold probabilidade_acerto_fl, fator_escala. cbn.
    destruct (Rlt_dec _ _) as [_|n]; [field | exfalso; apply n; lra]. }
  assert (H0 : probabilidade_acerto_fl saturating_arith (-100) 5 0 0 = 0).
  { unfold probabilidade_acerto_fl, fator_escala. cbn.
    destruct (Rlt_dec _ _) as [l|_]; [exfalso; lra|].
    destruct (Rlt_dec _ _) as [_|n]; [ring | exfalso; apply n; lra]. }
  repeat split; try (simpl; lra).
  - exact H1.
  - rewrite H1. unfold np_log_fl.
    destruct (Rlt_dec 0 (1 - 1)); [lra|].
    destruct (Rlt_dec (1 - 1) 0); [lra | reflexivity].
  - exact H0.
  - rewrite H0. unfold np_log_fl.
    destruct (Rlt_dec 0 0); [lra|].
    destruct (Rlt_dec 0 0); [lra | reflexivity].
Qed.

(** In binary64 the same happens: with [np.exp(-875.5) = 0.0] the
    probability of the valid item [(5, -3, 0.2)] at [theta = 100] is exactly
    [1.0], [1 - p] is [0.0] and the argument of the logarithm is the floor
    itself. *)
Lemma epsilon_floor_needed_f64 :
  let a := 5%float in let b := (-3)%float in
  let c := 0x1.999999999999ap-3%float in
  let theta := 100%float in
  valid_item_f64 (a, b, c) = true /\
  (forall np_exp,
     np_exp (-0x1.b5cp+9)%float = 0%float ->
     let p := probabilidade_acerto_f64 np_exp theta a b c in
     p = 1%float /\ (1 - p)%float = 0%float /\
     (1 - p + epsilon_f64)%float = epsilon_f64 /\
     (0 <? epsilon_f64)%float = true).
Proof.
  intros a b c theta. split; [reflexivity|].
  intros np_exp H p.
  assert (Hp : p = 1%float).
  { subst p. vm_compute. rewrite H. vm_compute. reflexivity. }
  rewrite Hp. repeat split; vm_compute; reflexivity.
Qed.






(** ** Runs of the estimator *)

Lemma not_padrao_extremo_1_0 : ~ padrao_extremo [1; 0]%Z.
Proof.
  intros [H | H].
  - inversion H as [|? ? _ H']. inversion H' as [|? ? E _]. discriminate E.
  - inversion H as [|? ? E _]. discriminate E.
Qed.

(** C8 as stated does not hold: after a failed optimization the value
    returned is the bare [None], the same for two different diagnostics, so
    the result does not carry the solver's message. *)
Lemma estimar_proficiencia_result_drops_diagnostic :
  let result_with (msg : string) :=
    fst (run
           (solver_const {| success := false; x_0 := 0.5; message := msg |})
           (estimar_proficiencia [1; 0]%Z
              [(1.2, -0.5, 0.2); (0.9, 0.3, 0.25)])
           []) in
  result_with "ABNORMAL_TERMINATION_IN_LNSRCH"%string = Ok None /\
  result_with "STOP: TOTAL NO. of ITERATIONS REACHED LIMIT"%string = Ok None /\
  "ABNORMAL_TERMINATION_IN_LNSRCH"%string
  <> "STOP: TOTAL NO. of ITERATIONS REACHED LIMIT"%string.
Proof.
  intros result_with. unfold result_with.
  rewrite (estimar_proficiencia_minimize _ _ not_padrao_extremo_1_0).
  repeat split. discriminate.
Qed.

(** C8, amended. When the optimizer reports non-convergence the estimate is
    the absent value [None], never a best-effort theta; the solver's
    diagnostic is not part of the result but is printed to standard output,
    after the text [MSG_FALHOU]. *)
Theorem estimar_proficiencia_nonconvergence
    (solver : MinimizeCall -> result OptimizeResult)
    (rs : list Z) (its : list item) (r : OptimizeResult) :
  ~ padrao_extremo rs ->
  solver (chamada_minimize rs its) = Ok r ->
  success r = false ->
  forall t,
    run solver (estimar_proficiencia rs its) t
    = (Ok None,
       t ++ [EvMinimize (chamada_minimize rs its);
             EvPrint (MSG_FALHOU ++ message r)%string]).
Proof.
  intros Hne Hs Hfail t.
  rewrite (estimar_proficiencia_minimize rs its Hne). simpl.
  rewrite Hs, Hfail. simpl. now rewrite <- app_assoc.
Qed.

Lemma estimar_proficiencia_nonconvergence_witness :
  let its := [(1.2, -0.5, 0.2); (0.9, 0.3, 0.25)] in
  let r := {| success := false; x_0 := 3.9;
              message := "ABNORMAL_TERMINATION_IN_LNSRCH" |} in
  run (solver_const r) (estimar_proficiencia [1; 0]%Z its) []
  = (Ok None,
     [] ++ [EvMinimize (chamada_minimize [1; 0]%Z its);
            EvPrint (MSG_FALHOU ++ "ABNORMAL_TERMINATION_IN_LNSRCH")%string]).
Proof.
  intros its r.
  apply (estimar_proficiencia_nonconvergence (solver_const r) [1; 0]%Z its r).
  - exact not_padrao_extremo_1_0.
  - reflexivity.
  - reflexivity.
Defined.

(** ** Inputs outside the preconditions *)

(** C6 as stated does not hold: an item with [a = -1] is not rejected.  The
    optimizer is called with it, the objective evaluates without an
    exception, and the converged theta is returned. *)
Lemma estimar_proficiencia_accepts_invalid_item :
  let rs := [1; 0]%Z in
  let its := [(-1, 0, 0.2); (1, 0, 0.2)] in
  let r := {| success := true; x_0 := 0.5; message := "CONVERGENCE" |} in
  invalid_input rs its /\
  run (solver_probe r) (estimar_proficiencia rs its) []
  = (Ok (Some 0.5), [EvMinimize (chamada_minimize rs its)]).
Proof.
  intros rs its r. split.
  - left. apply Exists_cons_hd. simpl. lra.
  - rewrite (estimar_proficiencia_minimize _ _ not_padrao_extremo_1_0).
    cbn [run]. unfold solver_probe, objective.
    cbn [chamada_minimize mc_fun mc_args mc_x0 fst snd].
    rewrite (log_verossimilhanca_fold_eq _ rs its) by reflexivity.
    reflexivity.
Qed.

(** C6, amended. On an input with an item outside the invariants, with lists
    of different lengths or with no responses, the estimator checks nothing
    and raises no error of its own.  When the responses are all 1 or all 0
    (the empty vector included) it prints the notice and returns [None];
    otherwise its first action is the call of the optimizer with the
    responses and items as given, and the run raises an exception only if
    that call does. *)
Theorem estimar_proficiencia_invalid_input (rs : list Z) (its : list item) :
  invalid_input rs its ->
  forall solver t,
    (padrao_extremo rs ->
       run solver (estimar_proficiencia rs its) t
       = (Ok None, t ++ [EvPrint MSG_PADRAO_EXTREMO])) /\
    (~ padrao_extremo rs ->
       exists o d,
         run solver (estimar_proficiencia rs its) t
         = (o, t ++ EvMinimize (chamada_minimize rs its) :: d) /\
         forall e, o = Raise e ->
                   solver (chamada_minimize rs its) = Raise e).
Proof.
  intros _ solver t. split; intros H.
  - now rewrite (estimar_proficiencia_extremo rs its H).
  - rewrite (estimar_proficiencia_minimize rs its H). cbn [run].
    destruct (solver (chamada_minimize rs its)) as [r | e].
    + destruct (success r); cbn [run].
      * exists (Ok (Some (x_0 r))), []. split; [reflexivity | discriminate].
      * exists (Ok None), [EvPrint (MSG_FALHOU ++ message r)%string].
        rewrite <- app_assoc. split; [reflexivity | discriminate].
    + exists (Raise e), []. split; [reflexivity | now intros ? [= <-]].
Qed.

Lemma estimar_proficiencia_invalid_input_witness :
  let rs := [1; 0]%Z in
  let its := [(1, 0, 0.2)] in
  let solver :=
    solver_probe {| success := true; x_0 := 0.5; message := "CONVERGENCE" |} in
  (padrao_extremo rs ->
     run solver (estimar_proficiencia rs its) []
     = (Ok None, [] ++ [EvPrint MSG_PADRAO_EXTREMO])) /\
  (~ padrao_extremo rs ->
     exists o d,
       run solver (estimar_proficiencia rs its) []
       = (o, [] ++ EvMinimize (chamada_minimize rs its) :: d) /\
       forall e, o = Raise e ->
                 solver (chamada_minimize rs its) = Raise e).
Proof.
  intros rs its solver.
  apply (estimar_proficiencia_invalid_input rs its).
  right. left. discriminate.
Defined.

(** With fewer items than responses the objective itself raises, so the
    [IndexError] surfaces from inside the optimizer call. *)
Lemma estimar_proficiencia_short_items :
  let rs := [1; 0]%Z in
  let its := [(1, 0, 0.2)] in
  let r := {| success := true; x_0 := 0.5; message := "CONVERGENCE" |} in
  run (solver_probe r) (estimar_proficiencia rs its) []
  = (Raise IndexError, [EvMinimize (chamada_minimize rs its)]).
Proof.
  intros rs its r.
  rewrite (estimar_proficiencia_minimize _ _ not_padrao_extremo_1_0).
  cbn [run]. unfold solver_probe, objective.
  cbn [chamada_minimize mc_fun mc_args mc_x0 fst snd].
  unfold log_verossimilhanca.
  rewrite (log_verossimilhanca_loop_short _ rs its) by (simpl; lia).
  reflexivity.
Qed.

(** * Further properties of the engine *)

(** ** The likelihood and the item list *)

(** X1. With fewer items than responses the likelihood raises [IndexError]
    at every theta: no partial sum is returned. *)
Theorem log_verossimilhanca_short_items (theta : R) (rs : list Z)
    (its : list item) :
  (length its < length rs)%nat ->
  log_verossimilhanca theta rs its = Raise IndexError.
Proof.
  intros Hlen. unfold log_verossimilhanca.
  rewrite (log_verossimilhanca_loop_short theta rs its 0) by lia.
  reflexivity.
Qed.

Lemma log_verossimilhanca_short_items_witness :
  log_verossimilhanca 0.5 [1; 0; 1]%Z [(1.2, -0.5, 0.2); (0.9, 0.3, 0.25)]
  = Raise IndexError.
Proof.
  apply (log_verossimilhanca_short_items 0.5 [1; 0; 1]%Z
           [(1.2, -0.5, 0.2); (0.9, 0.3, 0.25)]).
  simpl. lia.
Defined.

(** X2. Items beyond the last response are never read: the likelihood is the
    one of the first [len(respostas)] items, whatever follows them. *)
Theorem log_verossimilhanca_extra_items (theta : R) (rs : list Z)
    (its extra : list item) :
  length rs = length its ->
  log_verossimilhanca theta rs (its ++ extra)
  = log_verossimilhanca theta rs its.
Proof.
  intros Hlen.
  rewrite (log_verossimilhanca_fold theta rs its extra Hlen).
  now rewrite (log_verossimilhanca_fold_eq theta rs its Hlen).
Qed.

Lemma log_verossimilhanca_extra_items_witness :
  log_verossimilhanca 0.5 [1; 0]%Z
    ([(1.2, -0.5, 0.2); (0.9, 0.3, 0.25)] ++ [(-3, 0, 7)])
  = log_verossimilhanca 0.5 [1; 0]%Z [(1.2, -0.5, 0.2); (0.9, 0.3, 0.25)].
Proof.
  apply (log_verossimilhanca_extra_items 0.5 [1; 0]%Z
           [(1.2, -0.5, 0.2); (0.9, 0.3, 0.25)] [(-3, 0, 7)]).
  reflexivity.
Defined.

(** ** Sums of terms *)

Lemma npadd_assoc (u v w : npfloat) :
  npadd (npadd u v) w = npadd u (npadd v w).
Proof.
  destruct u, v, w; simpl; try reflexivity. f_equal. ring.
Qed.

Lemma npadd_zero_l (u : npfloat) : npadd (Finite 0.0) u = u.
Proof. destruct u; simpl; try reflexivity. f_equal. lra. Qed.

Lemma fold_acumula_shift (theta : R) (l : list (Z * item)) :
  forall acc,
    fold_left (acumula theta) l acc
    = npadd acc (fold_left (acumula theta) l (Finite 0.0)).
Proof.
  induction l as [|ri l IH]; intros acc; cbn [fold_left].
  - destruct acc; simpl; try reflexivity. f_equal. lra.
  - rewrite IH, (IH (acumula theta (Finite 0.0) ri)).
    unfold acumula. now rewrite npadd_zero_l, npadd_assoc.
Qed.

Lemma combine_app_eq {A B : Type} (l1 l2 : list A) (k1 k2 : list B) :
  length l1 = length k1 ->
  combine (l1 ++ l2) (k1 ++ k2) = combine l1 k1 ++ combine l2 k2.
Proof.
  revert k1. induction l1 as [|a l1 IH]; intros [|b k1] H; try discriminate.
  - reflexivity.
  - simpl. f_equal. apply IH. now injection H.
Qed.

(** X3. In exact arithmetic the negative log-likelihood is additive: for two
    blocks of responses, each with as many items as responses, the value on
    the concatenation is the sum of the values on the blocks. *)
Theorem log_verossimilhanca_app (theta : R) (rs1 rs2 : list Z)
    (its1 its2 : list item) :
  length rs1 = length its1 ->
  length rs2 = length its2 ->
  exists v1 v2,
    log_verossimilhanca theta rs1 its1 = Ok v1 /\
    log_verossimilhanca theta rs2 its2 = Ok v2 /\
    log_verossimilhanca theta (rs1 ++ rs2) (its1 ++ its2)
    = Ok (npadd v1 v2).
Proof.
  intros H1 H2.
  rewrite (log_verossimilhanca_fold_eq theta rs1 its1 H1).
  rewrite (log_verossimilhanca_fold_eq theta rs2 its2 H2).
  rewrite (log_verossimilhanca_fold_eq theta (rs1 ++ rs2) (its1 ++ its2))
    by (rewrite !length_app; lia).
  do 2 eexists. repeat split.
  rewrite combine_app_eq, fold_left_app by assumption.
  now rewrite fold_acumula_shift, npneg_npadd.
Qed.

Lemma log_verossimilhanca_app_witness :
  exists v1 v2,
    log_verossimilhanca 0.5 [1; 0]%Z [(1.2, -0.5, 0.2); (0.9, 0.3, 0.25)]
    = Ok v1 /\
    log_verossimilhanca 0.5 [1]%Z [(1.5, -1.0, 0.15)] = Ok v2 /\
    log_verossimilhanca 0.5 ([1; 0] ++ [1])%Z
      ([(1.2, -0.5, 0.2); (0.9, 0.3, 0.25)] ++ [(1.5, -1.0, 0.15)])
    = Ok (npadd v1 v2).
Proof.
  apply (log_verossimilhanca_app 0.5 [1; 0]%Z [1]%Z
           [(1.2, -0.5, 0.2); (0.9, 0.3, 0.25)] [(1.5, -1.0, 0.15)]);
    reflexivity.
Defined.

(** ** Why extreme patterns have no estimate *)

Lemma fold_acumula_lt (ta tb : R) (l : list (Z * item)) :
  Forall (fun ri => exists u v,
            parcela ta (fst ri) (snd ri) = Finite u /\
            parcela tb (fst ri) (snd ri) = Finite v /\ u < v) l ->
  forall x1 x2,
    x1 <= x2 ->
    exists y1 y2,
      fold_left (acumula ta) l (Finite x1) = Finite y1 /\
      fold_left (acumula tb) l (Finite x2) = Finite y2 /\
      y1 <= y2 /\ (l <> [] \/ x1 < x2 -> y1 < y2).
Proof.
  induction 1 as [|ri l [u [v [Hu [Hv Huv]]]] _ IH]; intros x1 x2 Hx.
  - exists x1, x2. repeat split; try assumption.
    intros [H | H]; [now elim H | exact H].
  - cbn [fold_left]. unfold acumula at 2 4. rewrite Hu, Hv. cbn [npadd].
    destruct (IH (x1 + u) (x2 + v)) as [y1 [y2 [H1 [H2 [Hle Hlt]]]]];
      [lra|].
    exists y1, y2. repeat split; try assumption.
    intros _. apply Hlt. right. lra.
Qed.

Lemma parcela_acerto_lt (t1 t2 : R) (it : item) :
  valid_item it -> t1 < t2 ->
  exists u v,
    parcela t1 1%Z it = Finite u /\ parcela t2 1%Z it = Finite v /\ u < v.
Proof.
  destruct it as [[a b] c]. intros Hv Ht.
  destruct (log_arguments_pos t1 a b c Hv) as [H1 _].
  destruct (log_arguments_pos t2 a b c Hv) as [H2 _].
  destruct Hv as [Ha [_ Hc]].
  pose proof (probabilidade_acerto_strict_mono a b c Ha Hc t1 t2 Ht).
  unfold parcela. cbn [Z.eqb Pos.eqb]. rewrite !np_log_pos by assumption.
  do 2 eexists. repeat split. apply ln_increasing; lra.
Qed.

Lemma parcela_erro_lt (t1 t2 : R) (it : item) :
  valid_item it -> t1 < t2 ->
  exists u v,
    parcela t2 0%Z it = Finite u /\ parcela t1 0%Z it = Finite v /\ u < v.
Proof.
  destruct it as [[a b] c]. intros Hv Ht.
  destruct (log_arguments_pos t1 a b c Hv) as [_ H1].
  destruct (log_arguments_pos t2 a b c Hv) as [_ H2].
  destruct Hv as [Ha [_ Hc]].
  pose proof (probabilidade_acerto_strict_mono a b c Ha Hc t1 t2 Ht).
  unfold parcela. cbn [Z.eqb]. rewrite !np_log_pos by assumption.
  do 2 eexists. repeat split. apply ln_increasing; lra.
Qed.

Lemma Forall_combine_const (v : Z) (P : Z * item -> Prop) (rs : list Z) :
  Forall (fun r => r = v) rs ->
  forall its,
    Forall (fun it => P (v, it)) its ->
    Forall P (combine rs its).
Proof.
  induction 1 as [|r rs -> _ IH]; intros its Hits; [constructor|].
  destruct Hits as [|it its Hit Hits]; simpl; constructor; auto.
Qed.

Lemma fold_acumula_valid_finite (theta : R) (rs : list Z) (its : list item) :
  Forall valid_item its ->
  exists y, fold_left (acumula theta) (combine rs its) (Finite 0.0) = Finite y.
Proof.
  intros Hval. apply fold_step_finite.
  apply Forall_forall. intros [r [[a b] c]] Hin.
  apply in_combine_r in Hin.
  rewrite Forall_forall in Hval. specialize (Hval _ Hin).
  destruct (log_arguments_pos theta a b c Hval) as [H1 H0].
  unfold parcela. cbn [fst snd].
  destruct (r =? 1)%Z; rewrite np_log_pos by assumption; eauto.
Qed.

(** X4. On an extreme pattern the objective has no interior minimum: with
    valid items and at least one response, the negative log-likelihood is
    strictly decreasing in theta when every response is 1 and strictly
    increasing when every response is 0. *)
Theorem log_verossimilhanca_extremo_monotone (rs : list Z) (its : list item)
    (t1 t2 : R) :
  (1 <= length rs)%nat ->
  length rs = length its ->
  Forall valid_item its ->
  t1 < t2 ->
  exists v1 v2,
    log_verossimilhanca t1 rs its = Ok (Finite v1) /\
    log_verossimilhanca t2 rs its = Ok (Finite v2) /\
    (Forall (fun r => r = 1%Z) rs -> v2 < v1) /\
    (Forall (fun r => r = 0%Z) rs -> v1 < v2).
Proof.
  intros Hne Hlen Hval Ht.
  rewrite (log_verossimilhanca_fold_eq t1 rs its Hlen).
  rewrite (log_verossimilhanca_fold_eq t2 rs its Hlen).
  destruct (fold_acumula_valid_finite t1 rs its Hval) as [y1 Hy1].
  destruct (fold_acumula_valid_finite t2 rs its Hval) as [y2 Hy2].
  assert (combine rs its <> []) as Hnil.
  { destruct rs, its; simpl in *; try lia; discriminate. }
  exists (- y1), (- y2). rewrite Hy1, Hy2. repeat split.
  - intros Hall.
    destruct (fold_acumula_lt t1 t2 (combine rs its)) with (x1 := 0.0)
      (x2 := 0.0) as [z1 [z2 [Hz1 [Hz2 [_ Hlt]]]]]; [|lra|].
    + apply (Forall_combine_const 1%Z _ rs Hall).
      eapply Forall_impl; [|exact Hval].
      intros it Hit. now apply parcela_acerto_lt.
    + rewrite Hy1 in Hz1. rewrite Hy2 in Hz2.
      injection Hz1 as <-. injection Hz2 as <-.
      specialize (Hlt (or_introl Hnil)). lra.
  - intros Hall.
    destruct (fold_acumula_lt t2 t1 (combine rs its)) with (x1 := 0.0)
      (x2 := 0.0) as [z2 [z1 [Hz2 [Hz1 [_ Hlt]]]]]; [|lra|].
    + apply (Forall_combine_const 0%Z _ rs Hall).
      eapply Forall_impl; [|exact Hval].
      intros it Hit. now apply parcela_erro_lt.
    + rewrite Hy1 in Hz1. rewrite Hy2 in Hz2.
      injection Hz1 as <-. injection Hz2 as <-.
      specialize (Hlt (or_introl Hnil)). lra.
Qed.

Lemma log_verossimilhanca_extremo_monotone_witness :
  exists v1 v2,
    log_verossimilhanca (-1) [1; 1]%Z [(1.2, -0.5, 0.2); (0.9, 0.3, 0.25)]
    = Ok (Finite v1) /\
    log_verossimilhanca 2 [1; 1]%Z [(1.2, -0.5, 0.2); (0.9, 0.3, 0.25)]
    = Ok (Finite v2) /\
    (Forall (fun r => r = 1%Z) [1; 1]%Z -> v2 < v1) /\
    (Forall (fun r => r = 0%Z) [1; 1]%Z -> v1 < v2).
Proof.
  apply (log_verossimilhanca_extremo_monotone [1; 1]%Z
           [(1.2, -0.5, 0.2); (0.9, 0.3, 0.25)] (-1) 2).
  - simpl. lia.
  - reflexivity.
  - repeat constructor; simpl; lra.
  - lra.
Defined.

(** ** The guard and the likelihood on responses other than 0 and 1 *)

Lemma log_verossimilhanca_loop_no_acerto (theta : R) (rs : list Z) :
  Forall (fun r => r <> 1%Z) rs ->
  forall (its : list item) (i : nat) (acc : npfloat),
    log_verossimilhanca_loop theta rs i its acc
    = log_verossimilhanca_loop theta (map (fun _ => 0%Z) rs) i its acc.
Proof.
  induction 1 as [|r rs Hr _ IH]; intros its i acc; [reflexivity|].
  cbn [map log_verossimilhanca_loop].
  destruct (nth_error its i) as [[[a b] c]|]; [|reflexivity].
  apply Z.eqb_neq in Hr. rewrite Hr. cbn [Z.eqb]. apply IH.
Qed.

(** X5. The guard and the likelihood disagree on responses other than 0 and
    1.  A vector without any 1 but with some value that is not 0 is not an
    extreme pattern for the guard, so the optimizer is called; yet its
    objective is, at every theta, the one of the all-wrong vector, which the
    guard would have refused. *)
Theorem estimar_proficiencia_non_binary (rs : list Z) (its : list item) :
  Forall (fun r => r <> 1%Z) rs ->
  Exists (fun r => r <> 0%Z) rs ->
  (exists k,
     estimar_proficiencia rs its = Minimize (chamada_minimize rs its) k) /\
  padrao_extremo (map (fun _ => 0%Z) rs) /\
  forall theta,
    objective (chamada_minimize rs its) theta
    = log_verossimilhanca theta (map (fun _ => 0%Z) rs) its.
Proof.
  intros Hno1 Hnot0. repeat split.
  - eexists. apply estimar_proficiencia_minimize.
    intros [H1 | H0].
    + apply Exists_exists in Hnot0. destruct Hnot0 as [r [Hin _]].
      rewrite Forall_forall in Hno1, H1. exact (Hno1 r Hin (H1 r Hin)).
    + apply Exists_exists in Hnot0. destruct Hnot0 as [r [Hin Hr]].
      rewrite Forall_forall in H0. exact (Hr (H0 r Hin)).
  - right. apply Forall_forall. intros r Hin.
    apply in_map_iff in Hin. now destruct Hin as [? [<- _]].
  - intros theta. unfold objective. cbn [chamada_minimize mc_fun mc_args fst snd].
    unfold log_verossimilhanca.
    now rewrite (log_verossimilhanca_loop_no_acerto theta rs Hno1).
Qed.

Lemma estimar_proficiencia_non_binary_witness :
  let rs := [2; 0]%Z in
  let its := [(1.2, -0.5, 0.2); (0.9, 0.3, 0.25)] in
  (exists k,
     estimar_proficiencia rs its = Minimize (chamada_minimize rs its) k) /\
  padrao_extremo (map (fun _ => 0%Z) rs) /\
  forall theta,
    objective (chamada_minimize rs its) theta
    = log_verossimilhanca theta (map (fun _ => 0%Z) rs) its.
Proof.
  intros rs its.
  apply (estimar_proficiencia_non_binary rs its).
  - repeat constructor; discriminate.
  - apply Exists_cons_hd. discriminate.
Defined.

(** ** What a run of the estimator can be *)

Lemma padrao_extremo_dec (rs : list Z) :
  {padrao_extremo rs} + {~ padrao_extremo rs}.
Proof.
  destruct (forallb (fun r => (r =? 1)%Z) rs
            || forallb (fun r => (r =? 0)%Z) rs) eqn:E.
  - left. now apply padrao_extremo_guard.
  - right. intros H. apply padrao_extremo_guard in H. congruence.
Qed.

(** X6. The estimate is a number exactly when the pattern is not extreme and
    the solver answers with [success]; the number is then the solver's
    [x[0]] itself, neither clipped nor checked against the bounds. *)
Theorem estimar_proficiencia_some_iff
    (solver : MinimizeCall -> result OptimizeResult)
    (rs : list Z) (its : list item) (t : list event) (theta : R) :
  fst (run solver (estimar_proficiencia rs its) t) = Ok (Some theta)
  <-> ~ padrao_extremo rs /\
      exists r, solver (chamada_minimize rs its) = Ok r /\
                success r = true /\ x_0 r = theta.
Proof.
  destruct (padrao_extremo_dec rs) as [He | Hne].
  - rewrite (estimar_proficiencia_extremo rs its He). cbn [run fst].
    split; [discriminate | now intros [H _]].
  - rewrite (estimar_proficiencia_minimize rs its Hne). cbn [run].
    destruct (solver (chamada_minimize rs its)) as [r | e] eqn:Es.
    + destruct (success r) eqn:Er; cbn [run fst]; split.
      * intros [= <-]. split; [exact Hne|]. now exists r.
      * intros [_ [r' [[= <-] [_ <-]]]]. reflexivity.
      * discriminate.
      * intros [_ [r' [[= <-] [Hs _]]]]. congruence.
    + cbn [fst]. split; [discriminate|].
      intros [_ [r' [Hr' _]]]. discriminate Hr'.
Qed.

(** X7. A run of the estimator calls the optimizer at most once and emits at
    most two events: the trace it leaves extends the one it started from. *)
Theorem estimar_proficiencia_one_call
    (solver : MinimizeCall -> result OptimizeResult)
    (rs : list Z) (its : list item) (t : list event) :
  exists d,
    snd (run solver (estimar_proficiencia rs its) t) = t ++ d /\
    (length d <= 2)%nat /\
    (optimizer_calls d <= 1)%nat.
Proof.
  destruct (padrao_extremo_dec rs) as [He | Hne].
  - rewrite (estimar_proficiencia_extremo rs its He). cbn [run snd].
    exists [EvPrint MSG_PADRAO_EXTREMO]. repeat split; unfold optimizer_calls; simpl; lia.
  - rewrite (estimar_proficiencia_minimize rs its Hne). cbn [run].
    destruct (solver (chamada_minimize rs its)) as [r | e].
    + destruct (success r); cbn [run snd].
      * exists [EvMinimize (chamada_minimize rs its)].
        repeat split; unfold optimizer_calls; simpl; lia.
      * exists [EvMinimize (chamada_minimize rs its);
                EvPrint (MSG_FALHOU ++ message r)%string].
        rewrite <- app_assoc. repeat split; unfold optimizer_calls; simpl; lia.
    + exists [EvMinimize (chamada_minimize rs its)].
      repeat split; unfold optimizer_calls; simpl; lia.
Qed.

(** X8. When the pattern is not extreme and there are fewer items than
    responses, the mismatch is found only inside the optimizer: against a
    solver that evaluates the objective at the starting point the run ends
    with [IndexError], after the optimizer call. *)
Theorem estimar_proficiencia_short_items_raises (rs : list Z)
    (its : list item) (r : OptimizeResult) (t : list event) :
  ~ padrao_extremo rs ->
  (length its < length rs)%nat ->
  run (solver_probe r) (estimar_proficiencia rs its) t
  = (Raise IndexError, t ++ [EvMinimize (chamada_minimize rs its)]).
Proof.
  intros Hne Hlen.
  rewrite (estimar_proficiencia_minimize rs its Hne).
  cbn [run]. unfold solver_probe, objective.
  cbn [chamada_minimize mc_fun mc_args mc_x0 fst snd].
  unfold log_verossimilhanca.
  rewrite (log_verossimilhanca_loop_short _ rs its 0) by lia.
  reflexivity.
Qed.

Lemma estimar_proficiencia_short_items_raises_witness :
  let rs := [1; 0; 1]%Z in
  let its := [(1.2, -0.5, 0.2); (0.9, 0.3, 0.25)] in
  let r := {| success := true; x_0 := 0.5; message := "CONVERGENCE" |} in
  run (solver_probe r) (estimar_proficiencia rs its) []
  = (Raise IndexError, [] ++ [EvMinimize (chamada_minimize rs its)]).
Proof.
  intros rs its r.
  apply (estimar_proficiencia_short_items_raises rs its r []).
  - intros [H | H].
    + inversion H as [|? ? _ H']. inversion H' as [|? ? E _]. discriminate E.
    + inversion H as [|? ? E _]. discriminate E.
  - simpl. lia.
Defined.

(** ** The score scale *)

Lemma calcular_nota_tri_some (theta : R) :
  calcular_nota_tri (Some theta) = Some (500 + 100 * theta).
Proof.
  unfold calcular_nota_tri, NOTA_ENEM_MEDIA, THETA_MEDIA,
    NOTA_ENEM_DESVIO_PADRAO, THETA_DESVIO_PADRAO.
  f_equal. lra.
Qed.

(** X9. A theta inside the bounds given to the optimizer, [[-4, 4]], is
    reported as a score between 100 and 900. *)
Theorem calcular_nota_tri_bounds (theta : R) :
  -4 <= theta <= 4 ->
  exists nota,
    calcular_nota_tri (Some theta) = Some nota /\ 100 <= nota <= 900.
Proof.
  intros H. rewrite calcular_nota_tri_some. eexists. split; [reflexivity|].
  lra.
Qed.

Lemma calcular_nota_tri_bounds_witness :
  exists nota,
    calcular_nota_tri (Some 1.25) = Some nota /\ 100 <= nota <= 900.
Proof.
  apply (calcular_nota_tri_bounds 1.25). lra.
Defined.

(** X10. In exact real arithmetic the score scale keeps the order of the
    abilities and loses nothing: a larger theta gives a larger score and
    only then, and theta is recovered from the score as
    [(nota - 500) / 100].  In binary64 the scale is not injective: the
    ability 1 and the next double above it both get the score 600. *)
Theorem calcular_nota_tri_order (t1 t2 : R) :
  (exists n1 n2,
     calcular_nota_tri (Some t1) = Some n1 /\
     calcular_nota_tri (Some t2) = Some n2 /\
     (t1 < t2 <-> n1 < n2) /\
     (t1 = t2 <-> n1 = n2) /\
     t1 = (n1 - 500) / 100) /\
  ((1 <? 0x1.0000000000001p+0)%float = true /\
   calcular_nota_tri_f64 (Some 1%float) = Some 600%float /\
   calcular_nota_tri_f64 (Some 0x1.0000000000001p+0%float)
   = Some 600%float).
Proof.
  split.
  - rewrite !calcular_nota_tri_some. do 2 eexists.
    repeat split; intros; lra.
  - repeat split.
Qed.

(** ** The curve of an item, further *)

Lemma logistic_opp (e : R) : logistic (- e) = 1 - logistic e.
Proof.
  unfold logistic. rewrite exp_Ropp. pose proof (exp_pos e). field. lra.
Qed.

(** X11. The curve of an item is symmetric about its difficulty: the
    probabilities at equal distances above and below [b] add up to
    [1 + c]. *)
Theorem probabilidade_acerto_symmetry (a b c d : R) :
  probabilidade_acerto (b + d) a b c + probabilidade_acerto (b - d) a b c
  = 1 + c.
Proof.
  rewrite !probabilidade_acerto_logistic.
  replace (- fator_escala * a * (b - d - b))
    with (- (- fator_escala * a * (b + d - b))) by ring.
  rewrite logistic_opp. ring.
Qed.

(** X12. At a fixed theta, a more difficult item (larger [b], with [a > 0]
    and [c < 1]) is answered correctly with a strictly smaller probability,
    and a larger guessing parameter [c] gives a strictly larger one. *)
Theorem probabilidade_acerto_parameters (theta a b c : R) :
  0 < a -> c < 1 ->
  (forall b', b < b' ->
     probabilidade_acerto theta a b' c < probabilidade_acerto theta a b c) /\
  (forall c', c < c' ->
     probabilidade_acerto theta a b c < probabilidade_acerto theta a b c').
Proof.
  intros Ha Hc. split.
  - intros b' Hb. rewrite !probabilidade_acerto_logistic.
    assert (- fator_escala * a * (theta - b) < - fator_escala * a * (theta - b'))
      as He.
    { unfold fator_escala.
      assert (0 < a * (b' - b)) by (apply Rmult_lt_0_compat; lra). lra. }
    pose proof (logistic_decreasing _ _ He).
    apply Rplus_lt_compat_l, Rmult_lt_compat_l; lra.
  - intros c' Hc'. rewrite !probabilidade_acerto_logistic.
    pose proof (logistic_lt_1 (- fator_escala * a * (theta - b))) as Hl.
    set (l := logistic _) in *.
    assert (0 < (c' - c) * (1 - l)) by (apply Rmult_lt_0_compat; lra).
    lra.
Qed.

Lemma probabilidade_acerto_parameters_witness :
  (forall b', 0.3 < b' ->
     probabilidade_acerto 0 0.9 b' 0.25 < probabilidade_acerto 0 0.9 0.3 0.25)
  /\
  (forall c', 0.25 < c' ->
     probabilidade_acerto 0 0.9 0.3 0.25 < probabilidade_acerto 0 0.9 0.3 c').
Proof.
  apply (probabilidade_acerto_parameters 0 0.9 0.3 0.25); lra.
Defined.

(** X13. The function accepts a discrimination that is not positive.  With
    [a < 0] (and [c < 1]) the curve is strictly decreasing in theta: a more
    able respondent is given a smaller probability.  With [a = 0] it is
    flat at the midpoint [c + (1 - c) / 2]. *)
Theorem probabilidade_acerto_bad_discrimination (a b c : R) :
  a <= 0 -> c < 1 ->
  forall t1 t2, t1 < t2 ->
    (a < 0 ->
       probabilidade_acerto t2 a b c < probabilidade_acerto t1 a b c) /\
    (a = 0 ->
       probabilidade_acerto t1 a b c = c + (1 - c) / 2 /\
       probabilidade_acerto t2 a b c = c + (1 - c) / 2).
Proof.
  intros _ Hc t1 t2 Ht. split.
  - intros Ha. rewrite !probabilidade_acerto_logistic.
    assert (- fator_escala * a * (t1 - b) < - fator_escala * a * (t2 - b))
      as He.
    { unfold fator_escala.
      assert (0 < (- a) * (t2 - t1)) by (apply Rmult_lt_0_compat; lra). lra. }
    pose proof (logistic_decreasing _ _ He).
    apply Rplus_lt_compat_l, Rmult_lt_compat_l; lra.
  - intros ->. rewrite !probabilidade_acerto_logistic.
    replace (- fator_escala * 0 * (t1 - b)) with 0 by ring.
    replace (- fator_escala * 0 * (t2 - b)) with 0 by ring.
    rewrite logistic_0. split; lra.
Qed.

Lemma probabilidade_acerto_bad_discrimination_witness :
  (-1 < 0 ->
     probabilidade_acerto 2 (-1) 0 0.2 < probabilidade_acerto 1 (-1) 0 0.2) /\
  (-1 = 0 ->
     probabilidade_acerto 1 (-1) 0 0.2 = 0.2 + (1 - 0.2) / 2 /\
     probabilidade_acerto 2 (-1) 0 0.2 = 0.2 + (1 - 0.2) / 2).
Proof.
  apply (probabilidade_acerto_bad_discrimination (-1) 0 0.2); lra.
Defined.

Lemma logistic_lt_exp_opp (e : R) : logistic e < exp (- e).
Proof.
  unfold logistic. rewrite exp_Ropp. pose proof (exp_pos e).
  unfold Rdiv. rewrite Rmult_1_l.
  apply Rinv_lt_contravar; [|lra].
  apply Rmult_lt_0_compat; lra.
Qed.

Lemma exp_lt_of_lt_ln (x eps : R) : 0 < eps -> x < ln eps -> exp x < eps.
Proof.
  intros Heps Hx. apply Rlt_le_trans with (exp (ln eps)).
  - now apply exp_increasing.
  - rewrite (exp_ln eps Heps). lra.
Qed.

Lemma lt_div_scale (k x y : R) : 0 < k -> x < y / k -> k * x < y.
Proof.
  intros Hk H. apply (Rmult_lt_compat_l k) in H; [|exact Hk].
  replace (k * (y / k)) with y in H by (field; lra). exact H.
Qed.

(** X14. The bounds [c] and 1 of the curve are approached but are the best
    ones: for a valid item and every margin [eps > 0] the probability is
    below [c + eps] for all theta small enough and above [1 - eps] for all
    theta large enough. *)
Theorem probabilidade_acerto_limits (a b c eps : R) :
  valid_item (a, b, c) ->
  0 < eps ->
  exists lo hi,
    (forall theta, theta < lo -> probabilidade_acerto theta a b c < c + eps) /\
    (forall theta, hi < theta -> 1 - eps < probabilidade_acerto theta a b c).
Proof.
  intros [Ha [Hc0 Hc1]] Heps.
  assert (0 < fator_escala * a) as Hfa
    by (unfold fator_escala; apply Rmult_lt_0_compat; lra).
  exists (b + ln eps / (fator_escala * a)), (b - ln eps / (fator_escala * a)).
  split; intros theta Ht; rewrite probabilidade_acerto_logistic.
  - set (e := - fator_escala * a * (theta - b)).
    assert (- e < ln eps) as He.
    { assert (fator_escala * a * (theta - b) < ln eps)
        by (apply lt_div_scale; lra).
      subst e. lra. }
    pose proof (logistic_lt_exp_opp e).
    pose proof (exp_lt_of_lt_ln _ _ Heps He).
    pose proof (logistic_pos e).
    assert ((1 - c) * logistic e <= 1 * logistic e)
      by (apply Rmult_le_compat_r; lra).
    lra.
  - set (e := - fator_escala * a * (theta - b)).
    assert (e < ln eps) as He.
    { assert (fator_escala * a * (b - theta) < ln eps)
        by (apply lt_div_scale; lra).
      subst e. lra. }
    pose proof (logistic_lt_exp_opp (- e)) as Hl.
    rewrite logistic_opp, Ropp_involutive in Hl.
    pose proof (exp_lt_of_lt_ln _ _ Heps He).
    pose proof (logistic_lt_1 e).
    assert ((1 - c) * (1 - logistic e) <= 1 * (1 - logistic e))
      by (apply Rmult_le_compat_r; lra).
    lra.
Qed.

Lemma probabilidade_acerto_limits_witness :
  exists lo hi,
    (forall theta, theta < lo ->
       probabilidade_acerto theta 1.2 (-0.5) 0.2 < 0.2 + 0.001) /\
    (forall theta, hi < theta ->
       1 - 0.001 < probabilidade_acerto theta 1.2 (-0.5) 0.2).
Proof.
  apply (probabilidade_acerto_limits 1.2 (-0.5) 0.2 0.001).
  - simpl. lra.
  - lra.
Defined.

(** * The importer's column names *)

Lemma column_in_In (col : string) (cols : list string) :
  column_in col cols = true <-> In col cols.
Proof.
  unfold column_in. rewrite existsb_exists. split.
  - intros [x [Hin Heq]]. apply String.eqb_eq in Heq. now subst.
  - intros Hin. exists col. split; [exact Hin | apply String.eqb_refl].
Qed.

Lemma column_in_not_In (col : string) (cols : list string) :
  column_in col cols = false <-> ~ In col cols.
Proof.
  rewrite <- column_in_In. destruct (column_in col cols); split;
    congruence.
Qed.

(** X15. [find_column_name] returns the first of the candidate names, in the
    order given, that is a column of the frame: the answer is a column, it
    is a candidate, and every candidate before it is not a column. *)
Theorem find_column_name_first (df_columns target_columns : list string)
    (col : string) :
  find_column_name df_columns target_columns = Some col
  <-> exists before after,
        target_columns = before ++ col :: after /\
        In col df_columns /\
        forall c, In c before -> ~ In c df_columns.
Proof.
  induction target_columns as [|t ts IH]; cbn [find_column_name].
  - split; [discriminate|]. intros [[|? ?] [? [H _]]]; discriminate H.
  - destruct (column_in t df_columns) eqn:E.
    + apply column_in_In in E. split.
      * intros [= <-]. exists [], ts. repeat split; [exact E|].
        intros c [].
      * intros [[|b before] [after [Heq [Hin Hpre]]]].
        -- now injection Heq as <- _.
        -- injection Heq as <- _. elim (Hpre t); [now left | exact E].
    + apply column_in_not_In in E. rewrite IH. split.
      * intros [before [after [-> [Hin Hpre]]]].
        exists (t :: before), after. repeat split; [exact Hin|].
        intros c [<- | Hc]; [exact E | now apply Hpre].
      * intros [[|b before] [after [Heq [Hin Hpre]]]].
        -- injection Heq as -> _. contradiction.
        -- injection Heq as _ ->. exists before, after.
           repeat split; [exact Hin|]. intros c Hc. apply Hpre. now right.
Qed.

(** X16. [find_column_name] answers [None] exactly when no candidate name is
    a column of the frame; in particular for an empty candidate list. *)
Theorem find_column_name_none (df_columns target_columns : list string) :
  find_column_name df_columns target_columns = None
  <-> forall c, In c target_columns -> ~ In c df_columns.
Proof.
  induction target_columns as [|t ts IH]; cbn [find_column_name].
  - split; [intros _ c [] | reflexivity].
  - destruct (column_in t df_columns) eqn:E.
    + apply column_in_In in E. split; [discriminate|].
      intros H. elim (H t); [now left | exact E].
    + apply column_in_not_In in E. rewrite IH. split.
      * intros H c [<- | Hc]; [exact E | now apply H].
      * intros H c Hc. apply H. now right.
Qed.

(** ** Dictionary look-up after assignment *)

Section DictFacts.

Variables K V : Type.
Variable eqb : K -> K -> bool.
Hypothesis eqb_spec : forall x y, eqb x y = true <-> x = y.

Lemma dict_get_set_same (d : dict K V) (k : K) (v default : V) :
  dict_get eqb (dict_set eqb d k v) k default = v.
Proof.
  unfold dict_set. cbn [dict_get].
  now rewrite (proj2 (eqb_spec k k) eq_refl).
Qed.

Lemma dict_get_filter_other (d : dict K V) (k k' : K) (default : V) :
  k <> k' ->
  dict_get eqb (filter (fun kv => negb (eqb (fst kv) k)) d) k' default
  = dict_get eqb d k' default.
Proof.
  intros Hne. induction d as [|[k0 v0] d IH]; [reflexivity|].
  cbn [filter fst dict_get].
  destruct (eqb k0 k) eqn:E0; cbn [negb].
  - apply eqb_spec in E0. subst k0.
    destruct (eqb k k') eqn:E1; [|exact IH].
    apply eqb_spec in E1. contradiction.
  - cbn [dict_get]. destruct (eqb k0 k'); [reflexivity | exact IH].
Qed.

Lemma dict_get_set_other (d : dict K V) (k k' : K) (v default : V) :
  k <> k' ->
  dict_get eqb (dict_set eqb d k v) k' default = dict_get eqb d k' default.
Proof.
  intros Hne. unfold dict_set. cbn [dict_get].
  destruct (eqb k k') eqn:E.
  - apply eqb_spec in E. contradiction.
  - now apply dict_get_filter_other.
Qed.

End DictFacts.

Lemma find_column_name_In (cols targets : list string) (c : string) :
  find_column_name cols targets = Some c -> In c targets /\ In c cols.
Proof.
  induction targets as [|t ts IH]; cbn [find_column_name]; [discriminate|].
  destruct (column_in t cols) eqn:E.
  - intros [= <-]. split; [now left | now apply column_in_In].
  - intros H. destruct (IH H). split; [now right | assumption].
Qed.

Lemma distinct_names_app (l1 l2 : list string) :
  distinct_names (l1 ++ l2) = true ->
  distinct_names l2 = true /\
  forall c, In c l1 -> ~ In c l2.
Proof.
  induction l1 as [|x l1 IH]; cbn [app distinct_names].
  - intros H. split; [exact H | intros c []].
  - intros H. apply andb_true_iff in H. destruct H as [Hx H].
    destruct (IH H) as [H2 Hdis]. split; [exact H2|].
    intros c [<- | Hc]; [|now apply Hdis].
    apply negb_true_iff, column_in_not_In in Hx.
    intros Hin. apply Hx, in_or_app. now right.
Qed.

Lemma build_current_mapping_inv (cols : list string)
    (mapping : list (string * list string)) :
  distinct_names (all_alternatives mapping) = true ->
  ~ In EmptyString (all_alternatives mapping) ->
  forall m0 p0 m p,
    build_current_mapping mapping cols m0 p0 = (m, p) ->
    p = p0 ++ map (fun e => AVISO_COLUNA (fst e))
                (filter (column_missing cols) mapping) /\
    (forall c d, ~ In c (all_alternatives mapping) ->
       dict_get String.eqb m c d = dict_get String.eqb m0 c d) /\
    (forall db alts c d,
       In (db, alts) mapping ->
       find_column_name cols alts = Some c ->
       dict_get String.eqb m c d = db).
Proof.
  induction mapping as [|[db0 alts0] rest IH]; intros Hd He m0 p0 m p Hb.
  - injection Hb as <- <-. rewrite app_nil_r. repeat split.
    intros db alts c d [].
  - unfold all_alternatives in Hd, He. cbn [map snd concat] in Hd, He.
    fold (all_alternatives rest) in Hd, He.
    destruct (distinct_names_app _ _ Hd) as [Hd' Hdis].
    assert (~ In EmptyString (all_alternatives rest)) as He'
      by (intros H; apply He, in_or_app; now right).
    cbn [build_current_mapping] in Hb. cbn [filter].
    unfold column_missing at 1. cbn [snd].
    destruct (find_column_name cols alts0) as [c0|] eqn:Ef.
    + destruct (find_column_name_In _ _ _ Ef) as [Hc0 _].
      assert (String.eqb c0 EmptyString = false) as Hne.
      { apply String.eqb_neq. intros ->. apply He, in_or_app. now left. }
      rewrite Hne in Hb.
      destruct (IH Hd' He' _ _ _ _ Hb) as [Hp [Hkeep Hget]].
      split; [exact Hp|]. split.
      * intros c d Hc. rewrite Hkeep.
        -- apply dict_get_set_other; [exact String.eqb_eq|].
           intros <-. apply Hc. unfold all_alternatives. cbn [map snd concat].
           apply in_or_app. now left.
        -- intros H. apply Hc. unfold all_alternatives. cbn [map snd concat].
           apply in_or_app. now right.
      * intros db alts c d [[= <- <-] | Hin] Hf.
        -- rewrite Ef in Hf. injection Hf as <-.
           rewrite Hkeep by (now apply Hdis).
           apply dict_get_set_same. exact String.eqb_eq.
        -- now apply (Hget db alts).
    + destruct (IH Hd' He' _ _ _ _ Hb) as [Hp [Hkeep Hget]].
      split; [rewrite Hp, <- app_assoc; reflexivity|]. split.
      * intros c d Hc. apply Hkeep. intros H. apply Hc.
        unfold all_alternatives. cbn [map snd concat].
        apply in_or_app. now right.
      * intros db alts c d [[= <- <-] | Hin] Hf.
        -- rewrite Ef in Hf. discriminate Hf.
        -- now apply (Hget db alts).
Qed.

(** X17. For a column mapping whose candidate names are all distinct and not
    empty, as [COLUMN_MAPPING] is, the loop over the mapping renames, for
    every database column, the first candidate present in the chunk to that
    column, and prints one warning, in the order of the mapping, for each
    database column with no candidate in the chunk, and no other line. *)
Theorem build_current_mapping_spec (mapping : list (string * list string))
    (cols : list string) :
  mapping_ok mapping = true ->
  snd (build_current_mapping mapping cols [] [])
  = map (fun e => AVISO_COLUNA (fst e))
      (filter (column_missing cols) mapping) /\
  forall db alts c,
    In (db, alts) mapping ->
    find_column_name cols alts = Some c ->
    dict_get String.eqb (fst (build_current_mapping mapping cols [] [])) c
      EmptyString
    = db.
Proof.
  intros Hok. apply andb_true_iff in Hok. destruct Hok as [Hd He].
  apply negb_true_iff, column_in_not_In in He.
  destruct (build_current_mapping mapping cols [] []) as [m p] eqn:Hb.
  destruct (build_current_mapping_inv cols mapping Hd He _ _ _ _ Hb)
    as [Hp [_ Hget]].
  split; [exact Hp|]. intros db alts c. apply Hget.
Qed.

Lemma build_current_mapping_spec_witness :
  let cols :=
    ["CO_ITEM"; "SG_AREA"; "PARAM_A"; "NU_PARAM_A"; "NU_PARAM_B";
     "TX_GABARITO"]%string in
  snd (build_current_mapping COLUMN_MAPPING cols [] [])
  = map (fun e => AVISO_COLUNA (fst e))
      (filter (column_missing cols) COLUMN_MAPPING) /\
  forall db alts c,
    In (db, alts) COLUMN_MAPPING ->
    find_column_name cols alts = Some c ->
    dict_get String.eqb (fst (build_current_mapping COLUMN_MAPPING cols [] []))
      c EmptyString
    = db.
Proof.
  intros cols.
  apply (build_current_mapping_spec COLUMN_MAPPING cols).
  reflexivity.
Defined.

Example build_current_mapping_partial :
  build_current_mapping COLUMN_MAPPING
    ["CO_ITEM"; "SG_AREA"; "PARAM_A"; "NU_PARAM_A"; "NU_PARAM_B";
     "TX_GABARITO"]%string [] []
  = ([("TX_GABARITO", "gabarito"); ("NU_PARAM_B", "param_b");
      ("NU_PARAM_A", "param_a"); ("SG_AREA", "area_conhecimento");
      ("CO_ITEM", "id_item")]%string,
     [AVISO_COLUNA "param_c"%string]).
Proof. reflexivity. Qed.

(** * The simulado *)

(** ** The area code in the text of the combo box *)

Lemma split_char_nonempty (sep : ascii) (s : string) :
  split_char sep s <> [].
Proof.
  destruct s as [|ch rest]; cbn [split_char]; [discriminate|].
  destruct (Ascii.eqb ch sep); [discriminate|].
  destruct (split_char sep rest); discriminate.
Qed.

Lemma split_char_no_sep (sep : ascii) (s : string) :
  has_char sep s = false -> split_char sep s = [s].
Proof.
  induction s as [|ch rest IH]; cbn [has_char split_char]; [reflexivity|].
  intros H. apply orb_false_iff in H. destruct H as [Hch Hrest].
  rewrite Hch, (IH Hrest). reflexivity.
Qed.

Lemma split_char_app (sep : ascii) (s1 s2 : string) :
  has_char sep s1 = false ->
  split_char sep (s1 ++ String sep s2) = s1 :: split_char sep s2.
Proof.
  induction s1 as [|ch rest IH]; cbn [has_char split_char String.append].
  - intros _. now rewrite Ascii.eqb_refl.
  - intros H. apply orb_false_iff in H. destruct H as [Hch Hrest].
    rewrite Hch, (IH Hrest). reflexivity.
Qed.

Lemma drop_last_app (s : string) (ch : ascii) :
  drop_last (s ++ String ch EmptyString) = s.
Proof.
  induction s as [|c rest IH]; [reflexivity|].
  cbn [String.append drop_last]. rewrite IH.
  destruct rest; reflexivity.
Qed.

(** X18. The area code is what stands between the first opening parenthesis
    and the last character: for a text [name(code)] with no parenthesis
    opening inside the name or the code the expression gives the code, and
    for a text without any opening parenthesis it raises [IndexError]. *)
Theorem area_sigla_spec (name code : string) :
  has_char "(" name = false ->
  has_char "(" code = false ->
  area_sigla (name ++ String "(" (code ++ ")")) = Some code /\
  area_sigla name = None.
Proof.
  intros Hn Hc. unfold area_sigla. split.
  - rewrite (split_char_app _ _ _ Hn).
    rewrite split_char_no_sep.
    + cbn [nth_error]. now rewrite drop_last_app.
    + clear Hn. induction code as [|c rest IH]; [reflexivity|].
      cbn [has_char String.append] in *.
      apply orb_false_iff in Hc. destruct Hc as [H1 H2].
      now rewrite H1, (IH H2).
  - now rewrite (split_char_no_sep _ _ Hn).
Qed.

Lemma area_sigla_spec_witness :
  area_sigla ("Ciências Humanas " ++ String "(" ("CH" ++ ")")) = Some "CH"%string
  /\ area_sigla "Ciências Humanas " = None.
Proof.
  apply (area_sigla_spec "Ciências Humanas " "CH"); reflexivity.
Defined.

Example area_sigla_AREAS :
  map area_sigla AREAS = [Some "LC"; Some "CH"; Some "CN"; Some "MT"]%string.
Proof. reflexivity. Qed.

(** ** The correction loop *)

Lemma corrigir_acc (ua : dict Z string) (rows : list Row) :
  forall rs its ac,
    corrigir rows ua rs its ac
    = (rs ++ map (resposta_de ua) rows,
       its ++ map params_de rows,
       (ac + Z.of_nat (count_occ Z.eq_dec (map (resposta_de ua) rows) 1%Z))%Z).
Proof.
  induction rows as [|row rows IH]; intros rs its ac.
  - cbn [corrigir map count_occ]. rewrite !app_nil_r.
    do 2 f_equal. cbn. lia.
  - cbn [corrigir map]. fold (params_de row).
    destruct (answer_matches (dict_get Z.eqb ua (id_item row) EmptyString)
                (gabarito row)) eqn:E.
    + assert (resposta_de ua row = 1%Z) as ->
        by (unfold resposta_de; now rewrite E).
      rewrite IH, <- !app_assoc. cbn [app].
      rewrite count_occ_cons_eq by reflexivity. f_equal. lia.
    + assert (resposta_de ua row = 0%Z) as ->
        by (unfold resposta_de; now rewrite E).
      rewrite IH, <- !app_assoc. cbn [app].
      rewrite count_occ_cons_neq by discriminate. reflexivity.
Qed.

Lemma corrigir_results (rows : list Row) (ua : dict Z string) :
  respostas_de rows ua = map (resposta_de ua) rows /\
  itens_de rows ua = map params_de rows /\
  acertos_de rows ua
  = Z.of_nat (count_occ Z.eq_dec (map (resposta_de ua) rows) 1%Z).
Proof.
  unfold respostas_de, itens_de, acertos_de. rewrite corrigir_acc.
  cbn [fst snd app]. repeat split.
Qed.

Lemma resposta_de_binary (ua : dict Z string) (row : Row) :
  resposta_de ua row = 0%Z \/ resposta_de ua row = 1%Z.
Proof.
  unfold resposta_de. destruct (answer_matches _ _); auto.
Qed.

(** X19. The correction loop hands the engine well-formed input, in the
    order of the rows: the i-th response is 1 when the answer recorded for
    the i-th row (or [''] when there is none) equals its [gabarito] and 0
    otherwise, the i-th item is the triple of parameters of the i-th row,
    and [acertos] is the number of responses equal to 1, between 0 and the
    number of rows. *)
Theorem corrigir_well_formed (rows : list Row) (ua : dict Z string) :
  respostas_de rows ua
  = map (fun row =>
           if answer_matches (dict_get Z.eqb ua (id_item row) EmptyString)
                (gabarito row)
           then 1%Z else 0%Z) rows /\
  itens_de rows ua
  = map (fun row => (param_a row, param_b row, param_c row)) rows /\
  length (respostas_de rows ua) = length rows /\
  length (itens_de rows ua) = length rows /\
  Forall (fun r => r = 0%Z \/ r = 1%Z) (respostas_de rows ua) /\
  acertos_de rows ua
  = Z.of_nat (count_occ Z.eq_dec (respostas_de rows ua) 1%Z) /\
  (0 <= acertos_de rows ua <= Z.of_nat (length rows))%Z.
Proof.
  destruct (corrigir_results rows ua) as [Hr [Hi Ha]].
  split; [exact Hr|]. split; [exact Hi|].
  rewrite Hr, Hi, Ha, !length_map. repeat split.
  - apply Forall_forall. intros r Hin. apply in_map_iff in Hin.
    destruct Hin as [row [<- _]]. apply resposta_de_binary.
  - lia.
  - pose proof (count_occ_bound Z.eq_dec 1%Z (map (resposta_de ua) rows)).
    rewrite length_map in *. lia.
Qed.

(** ** Finishing a simulado *)

Lemma handle_finish_simulado_eq
    (solver : MinimizeCall -> result OptimizeResult) (w : MainWindow)
    (rows : list Row) :
  current_simulado_items w = Some rows ->
  handle_finish_simulado solver w
  = match run solver
            (estimar_proficiencia (respostas_de rows (user_answers w))
               (itens_de rows (user_answers w))) [] with
    | (Raise e, eventos) => (GRaise (EngineError e), map GEngine eventos)
    | (Ok theta, eventos) =>
        match calcular_nota_tri theta with
        | None =>
            (GOk (set_stack 0 w), map GEngine eventos ++ [CRITICO_SEM_NOTA])
        | Some nota =>
            match area_sigla (area_combo_text w) with
            | None => (GRaise GuiIndexError, map GEngine eventos)
            | Some area_texto =>
                (GOk (set_stack 0 w),
                 map GEngine eventos
                 ++ [GSaveSimulationResult area_texto nota
                       (acertos_de rows (user_answers w))
                       (Z.of_nat (length rows));
                     GInformation "Simulado Finalizado"
                       (acertos_de rows (user_answers w))
                       (Z.of_nat (length rows)) nota;
                     GSimulationFinished])
            end
        end
    end.
Proof.
  intros Hrows. unfold handle_finish_simulado, respostas_de, itens_de,
    acertos_de. rewrite Hrows.
  destruct (corrigir rows (user_answers w) [] [] 0%Z) as [[rs its] ac].
  cbn [fst snd].
  destruct (run solver (estimar_proficiencia rs its) []) as [[theta | e] evs];
    reflexivity.
Qed.

Lemma count_occ_zero_Forall (rs : list Z) :
  Forall (fun r => r = 0%Z \/ r = 1%Z) rs ->
  (count_occ Z.eq_dec rs 1%Z = 0%nat <-> Forall (fun r => r = 0%Z) rs).
Proof.
  induction 1 as [|r rs [-> | ->] _ IH].
  - split; [constructor | reflexivity].
  - rewrite count_occ_cons_neq by discriminate. rewrite IH. split.
    + now constructor.
    + now inversion 1.
  - rewrite count_occ_cons_eq by reflexivity. split; [discriminate|].
    inversion 1. discriminate.
Qed.

Lemma count_occ_all_Forall (rs : list Z) :
  Forall (fun r => r = 0%Z \/ r = 1%Z) rs ->
  (count_occ Z.eq_dec rs 1%Z = length rs <-> Forall (fun r => r = 1%Z) rs).
Proof.
  induction 1 as [|r rs [-> | ->] _ IH].
  - split; [constructor | reflexivity].
  - rewrite count_occ_cons_neq by discriminate. cbn [length]. split.
    + intros H. pose proof (count_occ_bound Z.eq_dec 1%Z rs). lia.
    + inversion 1. discriminate.
  - rewrite count_occ_cons_eq by reflexivity. cbn [length]. split.
    + intros H. constructor; [reflexivity|]. apply IH. lia.
    + inversion 1; subst. f_equal. now apply IH.
Qed.

Lemma padrao_extremo_acertos (rows : list Row) (ua : dict Z string) :
  padrao_extremo (respostas_de rows ua)
  <-> acertos_de rows ua = 0%Z
      \/ acertos_de rows ua = Z.of_nat (length rows).
Proof.
  destruct (corrigir_results rows ua) as [Hr [_ Ha]].
  assert (Forall (fun r => r = 0%Z \/ r = 1%Z) (respostas_de rows ua)) as Hb.
  { rewrite Hr. apply Forall_forall. intros r Hin. apply in_map_iff in Hin.
    destruct Hin as [row [<- _]]. apply resposta_de_binary. }
  assert (length (respostas_de rows ua) = length rows) as Hl
    by (rewrite Hr; apply length_map).
  rewrite Ha, <- Hr, <- Hl. unfold padrao_extremo.
  rewrite <- (count_occ_zero_Forall _ Hb), <- (count_occ_all_Forall _ Hb).
  split; intros [H | H]; try (right; lia); try (left; lia).
Qed.

(** X20. When no answer or every answer of the simulado is right
    ([acertos] is 0 or the number of items), nothing is saved: the engine
    prints its notice without calling the optimizer, the error box is
    shown, and the window goes back to the setup page. *)
Theorem handle_finish_simulado_extremo
    (solver : MinimizeCall -> result OptimizeResult) (w : MainWindow)
    (rows : list Row) :
  current_simulado_items w = Some rows ->
  acertos_de rows (user_answers w) = 0%Z
  \/ acertos_de rows (user_answers w) = Z.of_nat (length rows) ->
  handle_finish_simulado solver w
  = (GOk (set_stack 0 w),
     [GEngine (EvPrint MSG_PADRAO_EXTREMO); CRITICO_SEM_NOTA]).
Proof.
  intros Hrows Hac. apply padrao_extremo_acertos in Hac.
  rewrite (handle_finish_simulado_eq solver w rows Hrows).
  rewrite (estimar_proficiencia_extremo _ _ Hac). reflexivity.
Qed.

Lemma handle_finish_simulado_extremo_witness :
  let w :=
    janela_exemplo
      [(105, "A"); (104, "A"); (103, "A"); (102, "A"); (101, "B")]%Z%string in
  handle_finish_simulado
    (solver_probe {| success := true; x_0 := 0.5; message := "CONVERGENCE" |})
    w
  = (GOk (set_stack 0 w),
     [GEngine (EvPrint MSG_PADRAO_EXTREMO); CRITICO_SEM_NOTA]).
Proof.
  intros w.
  apply (handle_finish_simulado_extremo _ w rows_exemplo).
  - reflexivity.
  - left. reflexivity.
Defined.

Lemma run_estimar_cases (solver : MinimizeCall -> result OptimizeResult)
    (rs : list Z) (its : list item) (t : list event) :
  let call := chamada_minimize rs its in
  let out := run solver (estimar_proficiencia rs its) t in
  (padrao_extremo rs /\ out = (Ok None, t ++ [EvPrint MSG_PADRAO_EXTREMO]))
  \/ (~ padrao_extremo rs /\
      exists r, solver call = Ok r /\ success r = true /\
                out = (Ok (Some (x_0 r)), t ++ [EvMinimize call]))
  \/ (~ padrao_extremo rs /\
      exists r, solver call = Ok r /\ success r = false /\
                out = (Ok None,
                       t ++ [EvMinimize call;
                             EvPrint (MSG_FALHOU ++ message r)%string]))
  \/ (~ padrao_extremo rs /\
      exists e, solver call = Raise e /\
                out = (Raise e, t ++ [EvMinimize call])).
Proof.
  intros call out. subst call out.
  destruct (padrao_extremo_dec rs) as [He | Hne].
  - left. split; [exact He|].
    now rewrite (estimar_proficiencia_extremo rs its He).
  - right. rewrite (estimar_proficiencia_minimize rs its Hne). cbn [run].
    destruct (solver (chamada_minimize rs its)) as [r | e].
    + destruct (success r) eqn:Er; cbn [run].
      * left. split; [exact Hne|]. now exists r.
      * right. left. split; [exact Hne|]. exists r.
        rewrite <- app_assoc. now repeat split.
    + right. right. split; [exact Hne|]. now exists e.
Qed.

Lemma solver_probe_ok (r : OptimizeResult) (rs : list Z) (its : list item) :
  length rs = length its ->
  solver_probe r (chamada_minimize rs its) = Ok r.
Proof.
  intros Hlen. unfold solver_probe, objective.
  cbn [chamada_minimize mc_fun mc_args mc_x0 fst snd].
  now rewrite (log_verossimilhanca_fold_eq _ rs its Hlen).
Qed.

Lemma corrigir_lengths (rows : list Row) (ua : dict Z string) :
  length (respostas_de rows ua) = length (itens_de rows ua).
Proof.
  destruct (corrigir_results rows ua) as [-> [-> _]].
  now rewrite !length_map.
Qed.

Lemma acertos_de_bounds (rows : list Row) (ua : dict Z string) :
  (0 <= acertos_de rows ua <= Z.of_nat (length rows))%Z.
Proof.
  destruct (corrigir_results rows ua) as [_ [_ ->]].
  pose proof (count_occ_bound Z.eq_dec 1%Z (map (resposta_de ua) rows)).
  rewrite length_map in *. lia.
Qed.

Lemma not_In_GEngine_save (evs : list event) (area : string) (nota : R)
    (ac tot : Z) :
  ~ In (GSaveSimulationResult area nota ac tot) (map GEngine evs).
Proof.
  intros H. apply in_map_iff in H. destruct H as [e [He _]]. discriminate He.
Qed.

(** X21. Every result that [handle_finish_simulado] saves comes from an
    estimate of the engine: its score is the transformed theta, its counts
    are those of the correction, with at least one right and at least one
    wrong answer ([0 < acertos < total]), and the window is back on the
    setup page. *)
Theorem handle_finish_simulado_saved
    (solver : MinimizeCall -> result OptimizeResult) (w : MainWindow)
    (area : string) (nota : R) (ac tot : Z) :
  In (GSaveSimulationResult area nota ac tot)
    (snd (handle_finish_simulado solver w)) ->
  exists rows theta,
    current_simulado_items w = Some rows /\
    fst (run solver
           (estimar_proficiencia (respostas_de rows (user_answers w))
              (itens_de rows (user_answers w))) [])
    = Ok (Some theta) /\
    calcular_nota_tri (Some theta) = Some nota /\
    area_sigla (area_combo_text w) = Some area /\
    ac = acertos_de rows (user_answers w) /\
    tot = Z.of_nat (length rows) /\
    (0 < ac < tot)%Z /\
    fst (handle_finish_simulado solver w) = GOk (set_stack 0 w).
Proof.
  destruct (current_simulado_items w) as [rows|] eqn:Hrows.
  2:{ unfold handle_finish_simulado. rewrite Hrows. intros []. }
  rewrite (handle_finish_simulado_eq solver w rows Hrows).
  pose proof (padrao_extremo_acertos rows (user_answers w)) as Hext.
  pose proof (acertos_de_bounds rows (user_answers w)) as Hb.
  destruct (run_estimar_cases solver (respostas_de rows (user_answers w))
              (itens_de rows (user_answers w)) [])
    as [[_ Hrun] | [[Hne [r [_ [_ Hrun]]]] | [[_ [r [_ [_ Hrun]]]]
                                              | [_ [e [_ Hrun]]]]]];
    cbv zeta in Hrun; rewrite Hrun; cbn [calcular_nota_tri fst snd].
  - intros H. apply in_app_or in H. destruct H as [H | [H | []]].
    + now apply not_In_GEngine_save in H.
    + discriminate H.
  - destruct (area_sigla (area_combo_text w)) as [area'|]; cbn [snd].
    + intros H. apply in_app_or in H. destruct H as [H | H].
      * now apply not_In_GEngine_save in H.
      * destruct H as [H | [H | [H | []]]]; try discriminate H.
        injection H as <- <- <- <-.
        exists rows, (x_0 r). rewrite Hrun. repeat split; try reflexivity.
        -- destruct (Z.eq_dec (acertos_de rows (user_answers w)) 0);
             [|lia]. elim Hne. apply Hext. now left.
        -- destruct (Z.eq_dec (acertos_de rows (user_answers w))
                       (Z.of_nat (length rows))); [|lia].
           elim Hne. apply Hext. now right.
    + intros H. now apply not_In_GEngine_save in H.
  - intros H. apply in_app_or in H. destruct H as [H | [H | []]].
    + now apply not_In_GEngine_save in H.
    + discriminate H.
  - intros H. now apply not_In_GEngine_save in H.
Qed.

Lemma handle_finish_simulado_saved_witness :
  let w :=
    janela_exemplo
      [(105, "D"); (104, "A"); (103, "E"); (102, "A"); (101, "A")]%Z%string in
  let solver :=
    solver_probe {| success := true; x_0 := 0.5; message := "CONVERGENCE" |} in
  let nota :=
    IZR NOTA_ENEM_MEDIA
    + (0.5 - IZR THETA_MEDIA)
      * (IZR NOTA_ENEM_DESVIO_PADRAO / IZR THETA_DESVIO_PADRAO) in
  exists rows theta,
    current_simulado_items w = Some rows /\
    fst (run solver
           (estimar_proficiencia (respostas_de rows (user_answers w))
              (itens_de rows (user_answers w))) [])
    = Ok (Some theta) /\
    calcular_nota_tri (Some theta) = Some nota /\
    area_sigla (area_combo_text w) = Some "MT"%string /\
    3%Z = acertos_de rows (user_answers w) /\
    5%Z = Z.of_nat (length rows) /\
    (0 < 3 < 5)%Z /\
    fst (handle_finish_simulado solver w) = GOk (set_stack 0 w).
Proof.
  intros w solver nota.
  apply (handle_finish_simulado_saved solver w "MT" nota 3 5).
  rewrite (handle_finish_simulado_eq solver w rows_exemplo eq_refl).
  unfold solver. rewrite estimar_proficiencia_minimize.
  - cbn [run]. rewrite solver_probe_ok by apply corrigir_lengths.
    cbn [run success x_0 calcular_nota_tri]. right. left. reflexivity.
  - rewrite padrao_extremo_acertos. intros [H | H]; discriminate H.
Defined.

Lemma not_padrao_extremo_acertos (rows : list Row) (ua : dict Z string) :
  (0 < acertos_de rows ua < Z.of_nat (length rows))%Z ->
  ~ padrao_extremo (respostas_de rows ua).
Proof.
  intros H He. apply padrao_extremo_acertos in He. lia.
Qed.

(** X22. With at least one right and one wrong answer the outcome of
    [handle_finish_simulado] is decided by the solver alone.  On success the
    result is saved with the score [500 + 100 * x[0]] and the counts of the
    correction, the result box is shown and the signal is emitted; on
    non-convergence nothing is saved and the error box shown is the one
    that speaks of an extreme pattern.  Either way the window returns to
    the setup page. *)
Theorem handle_finish_simulado_mixed
    (solver : MinimizeCall -> result OptimizeResult) (w : MainWindow)
    (rows : list Row) (r : OptimizeResult) (area : string) :
  let ua := user_answers w in
  let call := chamada_minimize (respostas_de rows ua) (itens_de rows ua) in
  current_simulado_items w = Some rows ->
  (0 < acertos_de rows ua < Z.of_nat (length rows))%Z ->
  solver call = Ok r ->
  area_sigla (area_combo_text w) = Some area ->
  exists nota,
    nota = 500 + 100 * x_0 r /\
    handle_finish_simulado solver w
    = (GOk (set_stack 0 w),
       if success r
       then [GEngine (EvMinimize call);
             GSaveSimulationResult area nota (acertos_de rows ua)
               (Z.of_nat (length rows));
             GInformation "Simulado Finalizado" (acertos_de rows ua)
               (Z.of_nat (length rows)) nota;
             GSimulationFinished]
       else [GEngine (EvMinimize call);
             GEngine (EvPrint (MSG_FALHOU ++ message r)%string);
             CRITICO_SEM_NOTA]).
Proof.
  intros ua call Hrows Hac Hs Harea. subst ua call.
  rewrite (handle_finish_simulado_eq solver w rows Hrows).
  rewrite (estimar_proficiencia_minimize _ _
             (not_padrao_extremo_acertos rows _ Hac)).
  cbn [run]. rewrite Hs.
  destruct (success r); cbn [run calcular_nota_tri app map].
  - rewrite Harea. eexists. split; [|reflexivity].
    unfold NOTA_ENEM_MEDIA, THETA_MEDIA, NOTA_ENEM_DESVIO_PADRAO,
      THETA_DESVIO_PADRAO. lra.
  - exists (500 + 100 * x_0 r). split; reflexivity.
Qed.

Lemma handle_finish_simulado_mixed_witness :
  let w :=
    janela_exemplo
      [(105, "D"); (104, "A"); (103, "E"); (102, "A"); (101, "A")]%Z%string in
  let r := {| success := false; x_0 := 3.9;
              message := "ABNORMAL_TERMINATION_IN_LNSRCH" |} in
  let ua := user_answers w in
  let call :=
    chamada_minimize (respostas_de rows_exemplo ua)
      (itens_de rows_exemplo ua) in
  exists nota,
    nota = 500 + 100 * x_0 r /\
    handle_finish_simulado (solver_const r) w
    = (GOk (set_stack 0 w),
       if success r
       then [GEngine (EvMinimize call);
             GSaveSimulationResult "MT" nota (acertos_de rows_exemplo ua)
               (Z.of_nat (length rows_exemplo));
             GInformation "Simulado Finalizado" (acertos_de rows_exemplo ua)
               (Z.of_nat (length rows_exemplo)) nota;
             GSimulationFinished]
       else [GEngine (EvMinimize call);
             GEngine (EvPrint (MSG_FALHOU ++ message r)%string);
             CRITICO_SEM_NOTA]).
Proof.
  intros w r ua call.
  apply (handle_finish_simulado_mixed (solver_const r) w rows_exemplo r "MT").
  - reflexivity.
  - split; reflexivity.
  - reflexivity.
  - reflexivity.
Defined.

Lemma In_map_GEngine_app (ev : event) (evs : list event)
    (tail : list gui_event) :
  (forall ev', ~ In (GEngine ev') tail) ->
  In (GEngine ev) (map GEngine evs ++ tail) -> In ev evs.
Proof.
  intros Htail Hin. apply in_app_or in Hin. destruct Hin as [Hin | Hin].
  - apply in_map_iff in Hin. destruct Hin as [ev' [[= ->] Hin]]. exact Hin.
  - elim (Htail ev Hin).
Qed.

(** The only call of the optimizer a run of [handle_finish_simulado] can
    make is the one on the two lists of the correction loop. *)
Lemma handle_finish_simulado_calls
    (solver : MinimizeCall -> result OptimizeResult) (w : MainWindow)
    (call : MinimizeCall) :
  In (GEngine (EvMinimize call)) (snd (handle_finish_simulado solver w)) ->
  exists rows,
    current_simulado_items w = Some rows /\
    call = chamada_minimize (respostas_de rows (user_answers w))
             (itens_de rows (user_answers w)).
Proof.
  destruct (current_simulado_items w) as [rows|] eqn:Hrows.
  2:{ unfold handle_finish_simulado. rewrite Hrows. intros []. }
  rewrite (handle_finish_simulado_eq _ w rows Hrows).
  intros Hin. exists rows. split; [reflexivity|].
  assert (Hev : In (EvMinimize call)
                  (snd (run solver
                          (estimar_proficiencia
                             (respostas_de rows (user_answers w))
                             (itens_de rows (user_answers w))) []))).
  { destruct (run solver _ []) as [[theta | e] eventos]; cbn [snd].
    - destruct (calcular_nota_tri theta) as [nota|].
      + destruct (area_sigla (area_combo_text w)) as [area|];
          cbn [snd] in Hin.
        * apply (In_map_GEngine_app _ _ _) in Hin; [exact Hin|].
          intros ev' [H | [H | [H | []]]]; discriminate H.
        * apply in_map_iff in Hin.
          destruct Hin as [ev' [[= ->] Hin]]. exact Hin.
      + cbn [snd] in Hin.
        apply (In_map_GEngine_app _ _ _) in Hin; [exact Hin|].
        intros ev' [H | []]; discriminate H.
    - cbn [snd] in Hin. apply in_map_iff in Hin.
      destruct Hin as [ev' [[= ->] Hin]]. exact Hin. }
  destruct (run_estimar_cases solver
              (respostas_de rows (user_answers w))
              (itens_de rows (user_answers w)) [])
    as [[_ Hrun] | [[_ [r' [_ [_ Hrun]]]] | [[_ [r' [_ [_ Hrun]]]]
                                            | [_ [e [_ Hrun]]]]]];
    cbv zeta in Hrun; rewrite Hrun in Hev; cbn [snd app] in Hev.
  - destruct Hev as [H | []]. discriminate H.
  - destruct Hev as [[= <-] | []]. reflexivity.
  - destruct Hev as [[= <-] | [H | []]]; [reflexivity | discriminate H].
  - destruct Hev as [[= <-] | []]. reflexivity.
Qed.

(** X23. The window never passes the engine lists of different lengths.
    Whatever the solver, every call of the optimizer that
    [handle_finish_simulado] makes carries one response and one item per
    row of the simulado, so its objective returns a value at every theta
    and never raises.  Hence, against a solver that evaluates the objective
    on the starting point, the handler ends normally or with an exception
    of its own (no items loaded, or a combo text without parenthesis),
    never with the engine's [IndexError]. *)
Theorem handle_finish_simulado_no_engine_error
    (solver : MinimizeCall -> result OptimizeResult) (r : OptimizeResult)
    (w : MainWindow) :
  (forall call,
     In (GEngine (EvMinimize call)) (snd (handle_finish_simulado solver w)) ->
     exists rows,
       current_simulado_items w = Some rows /\
       length (fst (mc_args call)) = length rows /\
       length (snd (mc_args call)) = length rows /\
       forall theta, exists v, objective call theta = Ok v) /\
  (fst (handle_finish_simulado (solver_probe r) w) = GOk (set_stack 0 w)
   \/ fst (handle_finish_simulado (solver_probe r) w) = GRaise AttributeError
   \/ fst (handle_finish_simulado (solver_probe r) w) = GRaise GuiIndexError).
Proof.
  split.
  - intros call Hin.
    destruct (handle_finish_simulado_calls solver w call Hin)
      as [rows [Hrows ->]].
    exists rows. split; [exact Hrows|].
    cbn [chamada_minimize mc_args fst snd].
    destruct (corrigir_results rows (user_answers w)) as [Hr [Hi _]].
    split; [now rewrite Hr, length_map|].
    split; [now rewrite Hi, length_map|].
    intros theta. unfold objective.
    cbn [chamada_minimize mc_fun mc_args fst snd].
    rewrite (log_verossimilhanca_fold_eq theta _ _
               (corrigir_lengths rows (user_answers w))).
    eauto.
  - destruct (current_simulado_items w) as [rows|] eqn:Hrows.
    2:{ right. left. unfold handle_finish_simulado. now rewrite Hrows. }
    rewrite (handle_finish_simulado_eq _ w rows Hrows).
    destruct (run_estimar_cases (solver_probe r)
                (respostas_de rows (user_answers w))
                (itens_de rows (user_answers w)) [])
      as [[_ Hrun] | [[_ [r' [_ [_ Hrun]]]] | [[_ [r' [_ [_ Hrun]]]]
                                              | [_ [e [Hs _]]]]]];
      try (cbv zeta in Hrun; rewrite Hrun; cbn [calcular_nota_tri fst]).
    + now left.
    + destruct (area_sigla (area_combo_text w)); cbn [fst]; auto.
    + now left.
    + rewrite solver_probe_ok in Hs by apply corrigir_lengths.
      discriminate Hs.
Qed.

(** ** Answers that were never given *)

Lemma dict_get_absent {K V : Type} (eqb : K -> K -> bool) (d : dict K V)
    (k : K) (default : V) :
  dict_mem eqb d k = false -> dict_get eqb d k default = default.
Proof.
  induction d as [|[k0 v0] d IH]; [reflexivity|].
  unfold dict_mem. cbn [existsb fst dict_get]. intros H.
  apply orb_false_iff in H. destruct H as [H0 H]. rewrite H0. now apply IH.
Qed.

Lemma acertos_de_answered (rows : list Row) (ua : dict Z string) :
  Forall (fun row => gabarito row <> Some EmptyString) rows ->
  (count_occ Z.eq_dec (map (resposta_de ua) rows) 1%Z
   <= length (filter (fun row => dict_mem Z.eqb ua (id_item row)) rows))%nat.
Proof.
  induction 1 as [|row rows Hrow _ IH]; [apply Nat.le_refl|].
  cbn [map filter]. unfold resposta_de at 1.
  destruct (dict_mem Z.eqb ua (id_item row)) eqn:Hmem.
  - destruct (answer_matches _ _).
    + rewrite count_occ_cons_eq by reflexivity. cbn [length]. lia.
    + rewrite count_occ_cons_neq by discriminate. cbn [length]. lia.
  - rewrite (dict_get_absent _ _ _ _ Hmem).
    destruct (gabarito row) as [g|] eqn:Eg; cbn [answer_matches].
    + destruct (String.eqb EmptyString g) eqn:E.
      * apply String.eqb_eq in E. subst g. now elim Hrow.
      * rewrite count_occ_cons_neq by discriminate. exact IH.
    + rewrite count_occ_cons_neq by discriminate. exact IH.
Qed.

(** X24. An item the user never answered is looked up with the default
    [''], whatever was answered to the other items: its response is 1 when
    its [gabarito] is the empty string and 0 otherwise.  So, when no
    [gabarito] is empty, [acertos] is at most the number of rows that have
    a recorded answer. *)
Theorem corrigir_unanswered (rows : list Row) (ua : dict Z string)
    (i : nat) (row : Row) :
  nth_error rows i = Some row ->
  dict_mem Z.eqb ua (id_item row) = false ->
  nth_error (respostas_de rows ua) i
  = Some (if answer_matches EmptyString (gabarito row) then 1%Z else 0%Z) /\
  (gabarito row <> Some EmptyString ->
   nth_error (respostas_de rows ua) i = Some 0%Z) /\
  (Forall (fun row' => gabarito row' <> Some EmptyString) rows ->
   (acertos_de rows ua
    <= Z.of_nat
         (length (filter (fun row' => dict_mem Z.eqb ua (id_item row')) rows))
    < Z.of_nat (length rows))%Z).
Proof.
  intros Hnth Hmem.
  destruct (corrigir_results rows ua) as [Hr [_ Ha]].
  assert (H1 : nth_error (respostas_de rows ua) i
               = Some (if answer_matches EmptyString (gabarito row)
                       then 1%Z else 0%Z)).
  { rewrite Hr, nth_error_map, Hnth. cbn [option_map]. unfold resposta_de.
    now rewrite (dict_get_absent _ _ _ _ Hmem). }
  split; [exact H1|]. split.
  - intros Hg. rewrite H1.
    destruct (gabarito row) as [g|]; cbn [answer_matches]; [|reflexivity].
    destruct (String.eqb EmptyString g) eqn:E; [|reflexivity].
    apply String.eqb_eq in E. subst g. now elim Hg.
  - intros Hg. rewrite Ha. split.
    + apply inj_le. now apply acertos_de_answered.
    + apply inj_lt.
      apply nth_error_split in Hnth.
      destruct Hnth as [l1 [l2 [-> _]]].
      rewrite filter_app, !length_app. cbn [filter]. rewrite Hmem.
      pose proof (filter_length_le
                    (fun row' => dict_mem Z.eqb ua (id_item row')) l1).
      pose proof (filter_length_le
                    (fun row' => dict_mem Z.eqb ua (id_item row')) l2).
      cbn [length]. lia.
Qed.

Lemma corrigir_unanswered_witness :
  let ua := [(105, "D"); (101, "B")]%Z%string in
  let row := {| id_item := 103; gabarito := Some "E"%string;
                param_a := 1.5; param_b := -1.0; param_c := 0.15 |} in
  nth_error (respostas_de rows_exemplo ua) 2
  = Some (if answer_matches EmptyString (gabarito row) then 1%Z else 0%Z) /\
  (gabarito row <> Some EmptyString ->
   nth_error (respostas_de rows_exemplo ua) 2 = Some 0%Z) /\
  (Forall (fun row' => gabarito row' <> Some EmptyString) rows_exemplo ->
   (acertos_de rows_exemplo ua
    <= Z.of_nat
         (length (filter (fun row' => dict_mem Z.eqb ua (id_item row'))
                    rows_exemplo))
    < Z.of_nat (length rows_exemplo))%Z).
Proof.
  intros ua row.
  apply (corrigir_unanswered rows_exemplo ua 2 row).
  - reflexivity.
  - reflexivity.
Defined.

(** ** A simulado from start to finish *)

Lemma FINALIZAR_PROXIMA : String.eqb PROXIMA FINALIZAR = false.
Proof. reflexivity. Qed.

Lemma steps_cons_ok (solver : MinimizeCall -> result OptimizeResult)
    (w w' : MainWindow) (act : user_action) (evs : list gui_event)
    (rest : list user_action) :
  step solver w act = (GOk w', evs) ->
  steps solver w (act :: rest)
  = (fst (steps solver w' rest), evs ++ snd (steps solver w' rest)).
Proof.
  intros H. cbn [steps]. rewrite H. now destruct (steps solver w' rest).
Qed.

Lemma steps_select (solver : MinimizeCall -> result OptimizeResult)
    (w : MainWindow) (a : string) (rest : list user_action) :
  steps solver w (Select a :: rest)
  = steps solver (set_checked (Some a) w) rest.
Proof.
  rewrite (steps_cons_ok solver w (set_checked (Some a) w) (Select a) [])
    by reflexivity.
  now destruct (steps solver (set_checked (Some a) w) rest).
Qed.

Lemma em_prova_set_checked (rows : list Row) (text : string) (k : nat)
    (ua : dict Z string) (w : MainWindow) (c : option string) :
  em_prova rows text k ua w -> em_prova rows text k ua (set_checked c w).
Proof. intros H. exact H. Qed.

Section Prova.

Variable solver : MinimizeCall -> result OptimizeResult.
Variable rows : list Row.
Variable text : string.

Lemma handle_start_em_prova (w0 : MainWindow) (area : string) :
  area_combo_text w0 = text ->
  area_sigla text = Some area ->
  (1 <= length rows)%nat ->
  (questoes_spinbox_value w0 <= Z.of_nat (length rows))%Z ->
  exists w1,
    handle_start_simulado (Some rows) w0
    = (GOk w1, [GFetchRandomItems area (questoes_spinbox_value w0)]) /\
    em_prova rows text 0 [] w1 /\
    simulado_stack_index w1 = 1%Z.
Proof.
  intros Htext Harea Hne Hnum. unfold handle_start_simulado.
  rewrite Htext, Harea.
  destruct (Z.of_nat (length rows) <? questoes_spinbox_value w0)%Z eqn:E;
    [apply Z.ltb_lt in E; lia|].
  unfold display_current_question.
  cbn [current_simulado_items set_answers set_index set_items
       current_question_index].
  destruct rows as [|row0 rest] eqn:Erows; [simpl in Hne; lia|].
  cbn [nth_error]. eexists. split; [reflexivity|].
  split; [|reflexivity].
  unfold em_prova. cbn. repeat split. exact Htext.
Qed.

Lemma handle_next_question_next (w : MainWindow) (k : nat)
    (ua : dict Z string) (row : Row) (a : string) :
  em_prova rows text k ua w ->
  checked_button w = Some a ->
  nth_error rows k = Some row ->
  (S k < length rows)%nat ->
  exists w',
    handle_next_question solver w = (GOk w', []) /\
    em_prova rows text (S k) (dict_set Z.eqb ua (id_item row) a) w' /\
    simulado_stack_index w' = simulado_stack_index w.
Proof.
  intros [Hitems [Hidx [Hua [Htext Hbtn]]]] Hchk Hrow Hlt.
  destruct (nth_error rows (S k)) as [row'|] eqn:Hrow';
    [|apply nth_error_None in Hrow'; lia].
  assert ((Z.of_nat k =? Z.of_nat (length rows) - 1)%Z = false) as Hk
    by (apply Z.eqb_neq; lia).
  rewrite Hk in Hbtn.
  unfold handle_next_question. rewrite Hchk, Hitems, Hidx, Hrow.
  cbn [next_button_text set_answers]. rewrite Hbtn, FINALIZAR_PROXIMA.
  unfold display_current_question.
  cbn [current_simulado_items set_index set_answers current_question_index].
  rewrite Hitems, Hidx, Nat.add_1_r, Hrow', Hua.
  eexists. split; [reflexivity|]. split; [|reflexivity].
  unfold em_prova. cbn. repeat split; assumption.
Qed.

Lemma round_next (w : MainWindow) (k : nat) (ua : dict Z string)
    (row : Row) (a : string) (rest : list user_action) :
  em_prova rows text k ua w ->
  nth_error rows k = Some row ->
  (S k < length rows)%nat ->
  exists w',
    steps solver w (Select a :: ClickNext :: rest) = steps solver w' rest /\
    em_prova rows text (S k) (dict_set Z.eqb ua (id_item row) a) w' /\
    simulado_stack_index w' = simulado_stack_index w.
Proof.
  intros Hem Hrow Hlt.
  destruct (handle_next_question_next (set_checked (Some a) w) k ua row a)
    as [w' [Hnext [Hem' Hstack]]]; try assumption; [reflexivity|].
  exists w'. split; [|split; assumption].
  rewrite steps_select.
  rewrite (steps_cons_ok solver _ w' ClickNext [] rest) by exact Hnext.
  now destruct (steps solver w' rest).
Qed.

Lemma round_last (w : MainWindow) (k : nat) (ua : dict Z string)
    (row : Row) (a : string) :
  em_prova rows text k ua w ->
  nth_error rows k = Some row ->
  S k = length rows ->
  exists w',
    steps solver w [Select a; ClickNext] = handle_finish_simulado solver w' /\
    current_simulado_items w' = Some rows /\
    area_combo_text w' = text /\
    user_answers w' = dict_set Z.eqb ua (id_item row) a.
Proof.
  intros [Hitems [Hidx [Hua [Htext Hbtn]]]] Hrow Hlast.
  assert ((Z.of_nat k =? Z.of_nat (length rows) - 1)%Z = true) as Hk
    by (apply Z.eqb_eq; lia).
  rewrite Hk in Hbtn.
  exists (set_answers (dict_set Z.eqb ua (id_item row) a)
            (set_checked (Some a) w)).
  split; [|repeat split; assumption].
  rewrite steps_select. cbn [steps step].
  unfold handle_next_question at 1.
  cbn [checked_button set_checked current_simulado_items
       current_question_index user_answers next_button_text set_answers].
  rewrite Hitems, Hidx, Hrow, Hbtn, Hua, String.eqb_refl.
  destruct (handle_finish_simulado solver _) as [[w'|e] evs]; cbn.
  - now rewrite app_nil_r.
  - reflexivity.
Qed.

End Prova.

Lemma skipn_nth_error {A : Type} (l : list A) :
  forall k x, nth_error l k = Some x -> skipn k l = x :: skipn (S k) l.
Proof.
  induction l as [|y l IH]; intros [|k] x H; try discriminate.
  - now injection H as ->.
  - cbn [skipn]. now apply IH.
Qed.

Lemma responder_run (solver : MinimizeCall -> result OptimizeResult)
    (rows : list Row) (text : string) (answers : list string) :
  forall k ua w,
    em_prova rows text k ua w ->
    (k + length answers)%nat = length rows ->
    answers <> [] ->
    exists w_fin,
      steps solver w (responder answers)
      = handle_finish_simulado solver w_fin /\
      current_simulado_items w_fin = Some rows /\
      area_combo_text w_fin = text /\
      user_answers w_fin = registrar ua (combine (skipn k rows) answers).
Proof.
  induction answers as [|a rest IH]; intros k ua w Hem Hlen Hne;
    [now elim Hne|].
  cbn [length] in Hlen.
  destruct (nth_error rows k) as [row|] eqn:Hrow;
    [|apply nth_error_None in Hrow; lia].
  rewrite (skipn_nth_error rows k row Hrow).
  destruct rest as [|a' rest'].
  - destruct (round_last solver rows text w k ua row a Hem Hrow)
      as [w' [Hsteps [Hitems [Htext Hua]]]]; [cbn [length] in Hlen; lia|].
    exists w'. split; [exact Hsteps|]. split; [exact Hitems|].
    split; [exact Htext|]. rewrite Hua. cbn [combine].
    rewrite combine_nil. reflexivity.
  - destruct (round_next solver rows text w k ua row a
                (responder (a' :: rest')) Hem Hrow)
      as [w' [Hsteps [Hem' _]]]; [cbn [length] in Hlen; lia|].
    destruct (IH (S k) _ w' Hem') as [w_fin [Hfin [Hitems [Htext Hua]]]];
      [cbn [length] in *; lia | discriminate |].
    exists w_fin. split; [|split; [exact Hitems|split; [exact Htext|]]].
    + change (responder (a :: a' :: rest'))
        with (Select a :: ClickNext :: responder (a' :: rest')).
      now rewrite Hsteps.
    + rewrite Hua. reflexivity.
Qed.

Lemma registrar_get_other (pairs : list (Row * string)) :
  forall ua id default,
    ~ In id (map (fun ra => id_item (fst ra)) pairs) ->
    dict_get Z.eqb (registrar ua pairs) id default
    = dict_get Z.eqb ua id default.
Proof.
  induction pairs as [|[row a] pairs IH]; intros ua id default Hnot;
    [reflexivity|].
  unfold registrar. cbn [fold_left fst snd]. fold (registrar
    (dict_set Z.eqb ua (id_item row) a) pairs).
  rewrite IH by (intros H; apply Hnot; now right).
  apply dict_get_set_other; [exact Z.eqb_eq|].
  intros <-. apply Hnot. now left.
Qed.

Lemma registrar_get (pairs : list (Row * string)) :
  forall ua row a default,
    NoDup (map (fun ra => id_item (fst ra)) pairs) ->
    In (row, a) pairs ->
    dict_get Z.eqb (registrar ua pairs) (id_item row) default = a.
Proof.
  induction pairs as [|[row0 a0] pairs IH]; intros ua row a default Hnd Hin;
    [now elim Hin|].
  cbn [map fst] in Hnd. inversion Hnd as [|? ? Hnot Hnd']; subst.
  unfold registrar. cbn [fold_left fst snd]. fold (registrar
    (dict_set Z.eqb ua (id_item row0) a0) pairs).
  destruct Hin as [[= <- <-] | Hin].
  - rewrite registrar_get_other by exact Hnot.
    apply dict_get_set_same. exact Z.eqb_eq.
  - now apply IH.
Qed.

Lemma map_fst_combine_eq {A B : Type} (l : list A) :
  forall l' : list B, length l' = length l -> map fst (combine l l') = l.
Proof.
  induction l as [|x l IH]; intros [|y l'] H; try discriminate;
    [reflexivity|].
  cbn [combine map fst]. f_equal. apply IH. now injection H.
Qed.

(** X25. A simulado answered from the first question to the last runs
    without an exception of the window: after the start (with at least as
    many rows as asked for, of distinct ids) and one chosen alternative per
    question, what happens is the query of the data layer followed by
    [handle_finish_simulado] on a window that still holds the rows and in
    which the response of every item is the comparison of the alternative
    chosen for it with its [gabarito]. *)
Theorem simulado_completo_spec
    (solver : MinimizeCall -> result OptimizeResult) (w0 : MainWindow)
    (rows : list Row) (answers : list string) (area : string) :
  area_sigla (area_combo_text w0) = Some area ->
  (1 <= length rows)%nat ->
  (questoes_spinbox_value w0 <= Z.of_nat (length rows))%Z ->
  length answers = length rows ->
  NoDup (map id_item rows) ->
  exists w_fin,
    steps solver w0 (simulado_completo rows answers)
    = (fst (handle_finish_simulado solver w_fin),
       GFetchRandomItems area (questoes_spinbox_value w0)
       :: snd (handle_finish_simulado solver w_fin)) /\
    current_simulado_items w_fin = Some rows /\
    area_combo_text w_fin = area_combo_text w0 /\
    respostas_de rows (user_answers w_fin)
    = map resposta_a (combine rows answers) /\
    itens_de rows (user_answers w_fin) = map params_de rows.
Proof.
  intros Harea Hne Hnum Hlen Hnd.
  destruct (handle_start_em_prova rows (area_combo_text w0) w0 area
              eq_refl Harea Hne Hnum) as [w1 [Hstart [Hem _]]].
  destruct (responder_run solver rows (area_combo_text w0) answers 0 [] w1
              Hem) as [w_fin [Hsteps [Hitems [Htext Hua]]]].
  - cbn [Nat.add]. exact Hlen.
  - intros ->. cbn [length] in Hlen. lia.
  - exists w_fin. split; [|split; [exact Hitems | split; [exact Htext|]]].
    + unfold simulado_completo.
      rewrite (steps_cons_ok solver w0 w1 (ClickStart (Some rows)) _ _ Hstart).
      now rewrite Hsteps.
    + destruct (corrigir_results rows (user_answers w_fin)) as [Hr [Hi _]].
      split; [|exact Hi]. rewrite Hr, Hua. cbn [skipn].
      rewrite <- (map_fst_combine_eq rows answers Hlen) at 2.
      rewrite map_map. apply map_ext_in. intros [row a] Hin.
      unfold resposta_de, resposta_a. cbn [fst snd].
      rewrite (registrar_get (combine rows answers) [] row a); [reflexivity| |].
      * rewrite <- (map_map fst id_item).
        now rewrite (map_fst_combine_eq rows answers Hlen).
      * exact Hin.
Qed.

Lemma simulado_completo_spec_witness :
  let solver :=
    solver_probe {| success := true; x_0 := 0.5; message := "CONVERGENCE" |} in
  let answers := ["A"; "B"; "E"; "B"; "A"]%string in
  exists w_fin,
    steps solver janela_inicial (simulado_completo rows_exemplo answers)
    = (fst (handle_finish_simulado solver w_fin),
       GFetchRandomItems "LC" (questoes_spinbox_value janela_inicial)
       :: snd (handle_finish_simulado solver w_fin)) /\
    current_simulado_items w_fin = Some rows_exemplo /\
    area_combo_text w_fin = area_combo_text janela_inicial /\
    respostas_de rows_exemplo (user_answers w_fin)
    = map resposta_a (combine rows_exemplo answers) /\
    itens_de rows_exemplo (user_answers w_fin) = map params_de rows_exemplo.
Proof.
  intros solver answers.
  apply (simulado_completo_spec solver janela_inicial rows_exemplo answers
           "LC").
  - reflexivity.
  - simpl. lia.
  - simpl. lia.
  - reflexivity.
  - repeat constructor; simpl; intuition discriminate.
Defined.

(** ** The window stays consistent during the test *)

Lemma handle_finish_simulado_probe_ok (r : OptimizeResult) (w : MainWindow)
    (rows : list Row) (area : string) :
  current_simulado_items w = Some rows ->
  area_sigla (area_combo_text w) = Some area ->
  fst (handle_finish_simulado (solver_probe r) w) = GOk (set_stack 0 w).
Proof.
  intros Hrows Harea.
  rewrite (handle_finish_simulado_eq _ w rows Hrows).
  destruct (run_estimar_cases (solver_probe r)
              (respostas_de rows (user_answers w))
              (itens_de rows (user_answers w)) [])
    as [[_ Hrun] | [[_ [r' [_ [_ Hrun]]]] | [[_ [r' [_ [_ Hrun]]]]
                                            | [_ [e [Hs _]]]]]];
    try (cbv zeta in Hrun; rewrite Hrun; cbn [calcular_nota_tri fst]).
  - reflexivity.
  - now rewrite Harea.
  - reflexivity.
  - rewrite solver_probe_ok in Hs by apply corrigir_lengths. discriminate Hs.
Qed.

Lemma step_prova_ok (r : OptimizeResult) (rows : list Row) (text area : string)
    (w : MainWindow) (act : user_action) :
  area_sigla text = Some area ->
  prova_ok rows text w ->
  on_prova_page act ->
  exists w',
    fst (step (solver_probe r) w act) = GOk w' /\ prova_ok rows text w'.
Proof.
  intros Harea [k [ua [row [Hem [Hrow [Hlab Hid]]]]]] Hact.
  destruct act as [fetched | a |]; [now elim Hact | |].
  - exists (set_checked (Some a) w). split; [reflexivity|].
    exists k, ua, row. split; [exact Hem|]. repeat split; assumption.
  - cbn [step]. unfold handle_next_question.
    destruct (checked_button w) as [a|] eqn:Hchk.
    2:{ exists w. split; [reflexivity|]. exists k, ua, row.
        split; [exact Hem|]. repeat split; assumption. }
    destruct Hem as [Hitems [Hidx [Hua [Htext Hbtn]]]].
    rewrite Hitems, Hidx, Hrow. cbn [next_button_text set_answers].
    rewrite Hbtn.
    assert (k < length rows)%nat as Hlt
      by (apply nth_error_Some; congruence).
    destruct (Z.of_nat k =? Z.of_nat (length rows) - 1)%Z eqn:Hk.
    + rewrite String.eqb_refl.
      set (w1 := set_answers _ w).
      rewrite (handle_finish_simulado_probe_ok r w1 rows area);
        [|exact Hitems | cbn; now rewrite Htext].
      exists (set_stack 0 w1). split; [reflexivity|].
      exists k, (user_answers w1), row. repeat split; try assumption.
      unfold em_prova. cbn. rewrite Hk. now repeat split.
    + rewrite FINALIZAR_PROXIMA. cbn [fst]. unfold display_current_question.
      cbn [current_simulado_items set_index set_answers
           current_question_index].
      rewrite Hitems, Hidx, Nat.add_1_r.
      apply Z.eqb_neq in Hk.
      destruct (nth_error rows (S k)) as [row'|] eqn:Hrow';
        [|apply nth_error_None in Hrow'; lia].
      eexists. split; [reflexivity|].
      exists (S k), (dict_set Z.eqb (user_answers w) (id_item row) a), row'.
      repeat split; try assumption.
Qed.

(** X26. During the test the window stays consistent.  From a window
    whose index points at a row, whose labels show that row and whose
    button says "Finalizar Simulado" exactly on the last row, any sequence
    of selecting alternatives and pressing the button, in any order and with
    or without a selection, raises no exception (against a solver that
    evaluates the objective) and leads to a window of the same kind: the
    index never leaves the rows. *)
Theorem steps_prova_ok (r : OptimizeResult) (rows : list Row)
    (text area : string) (acts : list user_action) (w : MainWindow) :
  area_sigla text = Some area ->
  prova_ok rows text w ->
  Forall on_prova_page acts ->
  exists w',
    fst (steps (solver_probe r) w acts) = GOk w' /\ prova_ok rows text w'.
Proof.
  intros Harea Hok Hacts. revert w Hok.
  induction Hacts as [|act acts Hact _ IH]; intros w Hok.
  - exists w. now split.
  - destruct (step_prova_ok r rows text area w act Harea Hok Hact)
      as [w1 [Hstep Hok1]].
    destruct (IH w1 Hok1) as [w' [Hsteps Hok']].
    exists w'. split; [|exact Hok'].
    cbn [steps]. destruct (step (solver_probe r) w act) as [res evs].
    cbn [fst] in Hstep. subst res.
    destruct (steps (solver_probe r) w1 acts) as [res' evs'].
    exact Hsteps.
Qed.

Lemma steps_prova_ok_witness :
  let r := {| success := true; x_0 := 0.5; message := "CONVERGENCE" |} in
  let acts := [ClickNext; Select "A"; Select "D"; ClickNext; ClickNext] in
  exists w',
    fst (steps (solver_probe r) (janela_exemplo []) acts) = GOk w' /\
    prova_ok rows_exemplo "Matemática (MT)" w'.
Proof.
  intros r acts.
  apply (steps_prova_ok r rows_exemplo "Matemática (MT)" "MT" acts
           (janela_exemplo [])).
  - reflexivity.
  - exists 4%nat, [],
      {| id_item := 105; gabarito := Some "D"%string;
         param_a := 1.0; param_b := 1.2; param_c := 0.25 |}.
    repeat split.
  - repeat constructor.
Defined.

(** X27. Starting a simulado resets the test: whatever the window held
    before, when the data layer returns at least as many rows as asked for
    (and at least one), the window shows the test page on the first row with
    no recorded answer and no selected alternative, and is consistent; the
    only event is the query for the area code of the combo box. *)
Theorem handle_start_simulado_resets (w0 : MainWindow) (rows : list Row)
    (area : string) :
  area_sigla (area_combo_text w0) = Some area ->
  (1 <= length rows)%nat ->
  (questoes_spinbox_value w0 <= Z.of_nat (length rows))%Z ->
  exists w1,
    handle_start_simulado (Some rows) w0
    = (GOk w1, [GFetchRandomItems area (questoes_spinbox_value w0)]) /\
    prova_ok rows (area_combo_text w0) w1 /\
    current_question_index w1 = 0%nat /\
    user_answers w1 = [] /\
    checked_button w1 = None /\
    simulado_stack_index w1 = 1%Z.
Proof.
  intros Harea Hne Hnum. unfold handle_start_simulado. rewrite Harea.
  destruct (Z.of_nat (length rows) <? questoes_spinbox_value w0)%Z eqn:E;
    [apply Z.ltb_lt in E; lia|].
  unfold display_current_question.
  cbn [current_simulado_items set_answers set_index set_items
       current_question_index].
  destruct rows as [|row0 rest] eqn:Erows; [simpl in Hne; lia|].
  cbn [nth_error]. eexists. split; [reflexivity|].
  split; [|repeat split].
  exists 0%nat, [], row0. repeat split.
Qed.

Lemma handle_start_simulado_resets_witness :
  exists w1,
    handle_start_simulado (Some rows_exemplo)
      (janela_exemplo [(101, "A")]%Z%string)
    = (GOk w1, [GFetchRandomItems "MT" 5]) /\
    prova_ok rows_exemplo "Matemática (MT)" w1 /\
    current_question_index w1 = 0%nat /\
    user_answers w1 = [] /\
    checked_button w1 = None /\
    simulado_stack_index w1 = 1%Z.
Proof.
  apply (handle_start_simulado_resets (janela_exemplo [(101, "A")]%Z%string)
           rows_exemplo "MT").
  - reflexivity.
  - simpl. lia.
  - simpl. lia.
Defined.

(** ** What reaches the table of results *)

Lemma handle_finish_simulado_saved_inv
    (solver : MinimizeCall -> result OptimizeResult) (w : MainWindow)
    (area : string) (nota : R) (ac tot : Z) :
  In (GSaveSimulationResult area nota ac tot)
    (snd (handle_finish_simulado solver w)) ->
  exists rows r,
    current_simulado_items w = Some rows /\
    solver (chamada_minimize (respostas_de rows (user_answers w))
              (itens_de rows (user_answers w))) = Ok r /\
    calcular_nota_tri (Some (x_0 r)) = Some nota /\
    ac = acertos_de rows (user_answers w) /\
    tot = Z.of_nat (length rows) /\
    (0 < ac < tot)%Z.
Proof.
  destruct (current_simulado_items w) as [rows|] eqn:Hrows.
  2:{ unfold handle_finish_simulado. rewrite Hrows. intros []. }
  rewrite (handle_finish_simulado_eq solver w rows Hrows).
  pose proof (padrao_extremo_acertos rows (user_answers w)) as Hext.
  pose proof (acertos_de_bounds rows (user_answers w)) as Hb.
  destruct (run_estimar_cases solver (respostas_de rows (user_answers w))
              (itens_de rows (user_answers w)) [])
    as [[_ Hrun] | [[Hne [r [Hs [_ Hrun]]]] | [[_ [r [_ [_ Hrun]]]]
                                              | [_ [e [_ Hrun]]]]]];
    cbv zeta in Hrun; rewrite Hrun; cbn [calcular_nota_tri fst snd].
  - intros H. apply in_app_or in H. destruct H as [H | [H | []]].
    + now apply not_In_GEngine_save in H.
    + discriminate H.
  - destruct (area_sigla (area_combo_text w)) as [area'|]; cbn [snd].
    + intros H. apply in_app_or in H. destruct H as [H | H].
      * now apply not_In_GEngine_save in H.
      * destruct H as [H | [H | [H | []]]]; try discriminate H.
        injection H as <- <- <- <-.
        exists rows, r. repeat split; try reflexivity; try assumption.
        -- destruct (Z.eq_dec (acertos_de rows (user_answers w)) 0);
             [|lia]. elim Hne. apply Hext. now left.
        -- destruct (Z.eq_dec (acertos_de rows (user_answers w))
                       (Z.of_nat (length rows))); [|lia].
           elim Hne. apply Hext. now right.
    + intros H. now apply not_In_GEngine_save in H.
  - intros H. apply in_app_or in H. destruct H as [H | [H | []]].
    + now apply not_In_GEngine_save in H.
    + discriminate H.
  - intros H. now apply not_In_GEngine_save in H.
Qed.

(** X28. The percentage the dashboard computes for a result saved by the
    window is well defined and strictly between 0 and 100: such a row has
    [0 < acertos < total_itens], so the division is never by zero. *)
Theorem percentual_acertos_saved
    (solver : MinimizeCall -> result OptimizeResult) (w : MainWindow)
    (area : string) (nota : R) (ac tot : Z) :
  In (GSaveSimulationResult area nota ac tot)
    (snd (handle_finish_simulado solver w)) ->
  (0 < tot)%Z /\ 0 < percentual_acertos ac tot < 100.
Proof.
  intros H.
  destruct (handle_finish_simulado_saved_inv solver w area nota ac tot H)
    as [rows [r [_ [_ [_ [_ [_ [Hlo Hhi]]]]]]]].
  assert (0 < IZR ac) by (apply (IZR_lt 0); exact Hlo).
  assert (IZR ac < IZR tot) by (apply IZR_lt; exact Hhi).
  split; [lia|]. unfold percentual_acertos.
  assert (0 < IZR ac / IZR tot) by (apply Rdiv_lt_0_compat; lra).
  assert (IZR ac / IZR tot < 1).
  { apply (Rmult_lt_reg_r (IZR tot)); [lra|].
    unfold Rdiv. rewrite Rmult_assoc, Rinv_l by lra. lra. }
  lra.
Qed.

(** X29. With a solver that keeps its answer within the bounds of the call,
    every score saved by the window lies between 100 and 900: the bounds
    [(-4, 4)] that the engine passes to the optimizer bound the table of
    results. *)
Theorem nota_saved_bounds
    (solver : MinimizeCall -> result OptimizeResult) (w : MainWindow)
    (area : string) (nota : R) (ac tot : Z) :
  respects_bounds solver ->
  In (GSaveSimulationResult area nota ac tot)
    (snd (handle_finish_simulado solver w)) ->
  100 <= nota <= 900.
Proof.
  intros Hb H.
  destruct (handle_finish_simulado_saved_inv solver w area nota ac tot H)
    as [rows [r [_ [Hs [Hn _]]]]].
  specialize (Hb _ r (-4) 4 Hs eq_refl ltac:(lra)).
  rewrite calcular_nota_tri_some in Hn. injection Hn as <-. lra.
Qed.

Lemma In_saved_exemplo :
  let w :=
    janela_exemplo
      [(105, "D"); (104, "A"); (103, "E"); (102, "A"); (101, "A")]%Z%string in
  let nota :=
    IZR NOTA_ENEM_MEDIA
    + ((-4 + 4) / 2 - IZR THETA_MEDIA)
      * (IZR NOTA_ENEM_DESVIO_PADRAO / IZR THETA_DESVIO_PADRAO) in
  In (GSaveSimulationResult "MT" nota 3 5)
    (snd (handle_finish_simulado solver_midpoint w)).
Proof.
  intros w nota.
  rewrite (handle_finish_simulado_eq solver_midpoint w rows_exemplo eq_refl).
  rewrite estimar_proficiencia_minimize.
  - cbn [run]. unfold solver_midpoint at 1.
    cbn [chamada_minimize mc_bounds nth_error].
    cbn [run success x_0 calcular_nota_tri]. right. left. reflexivity.
  - rewrite padrao_extremo_acertos. intros [H | H]; discriminate H.
Qed.

Lemma percentual_acertos_saved_witness :
  (0 < 5)%Z /\ 0 < percentual_acertos 3 5 < 100.
Proof.
  exact (percentual_acertos_saved solver_midpoint _ _ _ _ _ In_saved_exemplo).
Defined.

Lemma solver_midpoint_respects_bounds : respects_bounds solver_midpoint.
Proof.
  intros call r lo hi Hs Hb Hle. unfold solver_midpoint in Hs.
  rewrite Hb in Hs. injection Hs as <-. cbn [x_0]. lra.
Qed.

Lemma nota_saved_bounds_witness :
  100 <= IZR NOTA_ENEM_MEDIA
         + ((-4 + 4) / 2 - IZR THETA_MEDIA)
           * (IZR NOTA_ENEM_DESVIO_PADRAO / IZR THETA_DESVIO_PADRAO)
  <= 900.
Proof.
  exact (nota_saved_bounds solver_midpoint _ _ _ _ _
           solver_midpoint_respects_bounds In_saved_exemplo).
Defined.
